(** * us_market_morning: the report generator of [scripts/fetch_us_market.py]

    A shallow embedding of the pure logic of the script: the percent-change
    helper [pct], the excerpting rule [safe_first_sentence], the price loop
    of [fetch_prices], the collection / deduplication loops of [fetch_news]
    and the index-table row of the template of [render_html].

    Conventions.
    - A Python [float] is a binary64 value of [PrimFloat.float]; the
      arithmetic operators are the IEEE ones, except true division, which
      raises on a zero divisor.
    - A Python [str] is a [string]; a character stands for a code point
      below U+0100.
    - Library calls that reach the network (yfinance, feedparser) and the
      YAML configuration are inputs of the functions. *)

From Stdlib Require Import ZArith Floats Lia Ascii String.
From Stdlib Require Import DecimalString DecimalPos DecimalN.
From stdpp Require Import base option list gmap strings.

Local Open Scope string_scope.
Local Open Scope list_scope.
Local Open Scope Z_scope.

(** ** Exceptions *)

(** The exception classes the modelled operations raise. Each one derives
    from [Exception], so an [except Exception] clause catches all of them. *)
Inductive exn : Type :=
  | ZeroDivisionError
  | TypeError
  | OverflowError
  | KeyError
  | IndexError.

Inductive result (A : Type) : Type :=
  | Ok (a : A)
  | Raise (e : exn).
Arguments Ok {A} a.
Arguments Raise {A} e.

#[global] Instance result_ret : MRet result := fun A a => Ok a.

#[global] Instance result_bind : MBind result := fun A B k r =>
  match r with
  | Ok a => k a
  | Raise e => Raise e
  end.

(** [try: body except Exception: handler] *)
Definition try_except {A : Type} (body : result A) (handler : exn -> result A)
  : result A :=
  match body with
  | Ok a => Ok a
  | Raise e => handler e
  end.

(** ** Python numbers *)

Inductive pyval : Type :=
  | PyFloat (f : float)
  | PyInt (z : Z)
  | PyStr (s : string)
  | PyNone.

(** [float(z)] for an int: round to nearest, ties to even; a value beyond the
    largest double raises [OverflowError]. *)
Definition int_to_float (z : Z) : result float :=
  match binary_normalize prec emax z 0 false with
  | S754_infinity _ => Raise OverflowError
  | sf => Ok (SF2Prim sf)
  end.

(** The operand conversion of [float.__truediv__]: [None] stands for
    [NotImplemented]. *)
Definition to_double (v : pyval) : option (result float) :=
  match v with
  | PyFloat f => Some (Ok f)
  | PyInt z => Some (int_to_float z)
  | PyStr _ | PyNone => None
  end.

(** [int / int]: the correctly rounded quotient. *)
Definition long_true_divide (a b : Z) : result float :=
  if b =? 0 then Raise ZeroDivisionError
  else
    match a with
    | Z0 => Ok (SF2Prim (S754_zero (b <? 0)))
    | _ =>
        match SFdiv prec emax
                (S754_finite (a <? 0) (Z.to_pos (Z.abs a)) 0)
                (S754_finite (b <? 0) (Z.to_pos (Z.abs b)) 0) with
        | S754_infinity _ => Raise OverflowError
        | sf => Ok (SF2Prim sf)
        end
    end.

(** [float / float] *)
Definition float_div (x y : float) : result float :=
  if (y =? 0)%float then Raise ZeroDivisionError else Ok (x / y)%float.

(** [a / b] *)
Definition py_truediv (a b : pyval) : result float :=
  match a, b with
  | PyInt x, PyInt y => long_true_divide x y
  | _, _ =>
      match to_double a, to_double b with
      | Some ra, Some rb => x ← ra; y ← rb; float_div x y
      | _, _ => Raise TypeError
      end
  end.

(** [pct], lines 37-41. *)
Definition pct (a b : pyval) : result float :=
  try_except
    (q ← py_truediv a b; Ok ((q - 1) * 100)%float)
    (fun _ => Ok nan).

(** ** [round(x, 2)] and ["%+.2f" % x] *)

(** The integer nearest to [m * 2^e * 100], ties to even: the digits that the
    correctly rounded decimal conversion keeps for two places. *)
Definition scaled_rne (m : positive) (e : Z) : Z :=
  let num := Z.pos m * 100 in
  if 0 <=? e then Z.shiftl num e
  else
    let den := Z.shiftl 1 (- e) in
    let q := num / den in
    let r := num mod den in
    match 2 * r ?= den with
    | Lt => q
    | Gt => q + 1
    | Eq => if Z.even q then q else q + 1
    end.

(** [round(x, 2)] of a float: NaN and the infinities round to themselves;
    a finite [x] goes to the decimal with two places nearest to it and back
    to the double nearest to that decimal, the sign kept. *)
Definition py_round2 (x : float) : float :=
  match Prim2SF x with
  | S754_finite s m e =>
      match scaled_rne m e with
      | Z.pos n =>
          SF2Prim (SFdiv prec emax (S754_finite s n 0) (S754_finite false 100 0))
      | _ => SF2Prim (S754_zero s)
      end
  | _ => x
  end.

Definition digit_char (d : Z) : ascii := ascii_of_nat (48 + Z.to_nat d).

(** Decimal digits of a natural number, most significant first. *)
Definition decimal (n : Z) : string :=
  NilEmpty.string_of_uint (N.to_uint (Z.to_N n)).

Definition sign_char (s : bool) : ascii := if s then "-"%char else "+"%char.

(** ["%+.2f" % x] *)
Definition format_plus_2f (x : float) : string :=
  match Prim2SF x with
  | S754_nan => "+nan"
  | S754_infinity s => String (sign_char s) "inf"
  | S754_zero s => String (sign_char s) "0.00"
  | S754_finite s m e =>
      let n := scaled_rne m e in
      String (sign_char s)
        (decimal (n / 100) +:+ "." +:+
         String (digit_char (n mod 100 / 10)) (String (digit_char (n mod 10)) ""))
  end.

(** ** Strings *)

Definition LF : ascii := "010"%char.
Definition DQ : ascii := "034"%char.

(** [str.isspace] on the code points below U+0100: U+0009..U+000D,
    U+001C..U+0020, U+0085 and U+00A0. *)
Definition isspace (c : ascii) : bool :=
  let n := Z.of_nat (nat_of_ascii c) in
  ((9 <=? n) && (n <=? 13)) || ((28 <=? n) && (n <=? 32))
  || (n =? 133) || (n =? 160).

Fixpoint lstrip (s : string) : string :=
  match s with
  | EmptyString => EmptyString
  | String c s' => if isspace c then lstrip s' else s
  end.

Fixpoint rstrip (s : string) : string :=
  match s with
  | EmptyString => EmptyString
  | String c s' =>
      match rstrip s' with
      | EmptyString => if isspace c then EmptyString else String c EmptyString
      | r => String c r
      end
  end.

(** [s.strip()] *)
Definition strip (s : string) : string := rstrip (lstrip s).

(** [s.replace(old, new)] for a non-empty [old]: occurrences are taken from
    the left and do not overlap; [skip] counts the characters of a matched
    occurrence still to be passed over. *)
Fixpoint replace_from (old new : string) (skip : nat) (s : string) : string :=
  match s with
  | EmptyString => EmptyString
  | String c s' =>
      match skip with
      | S k => replace_from old new k s'
      | O =>
          if String.prefix old s
          then new +:+ replace_from old new (String.length old - 1)%nat s'
          else String c (replace_from old new O s')
      end
  end.

Definition replace (old new s : string) : string := replace_from old new O s.

(** [s.find(sub)]: the least index at which [sub] occurs, [-1] if none. *)
Fixpoint find_from (sub : string) (i : Z) (s : string) : Z :=
  if String.prefix sub s then i
  else
    match s with
    | EmptyString => -1
    | String _ s' => find_from sub (i + 1) s'
    end.

Definition find (sub s : string) : Z := find_from sub 0 s.

Fixpoint str_take (n : nat) (s : string) : string :=
  match n, s with
  | S n', String c s' => String c (str_take n' s')
  | _, _ => EmptyString
  end.

(** [s[:k]]: a negative [k] counts from the end. *)
Definition slice_to (s : string) (k : Z) : string :=
  if k <? 0 then str_take (String.length s - Z.to_nat (- k))%nat s
  else str_take (Z.to_nat k) s.

(** [str.lower] on the code points below U+0100. *)
Definition lower_char (c : ascii) : ascii :=
  let n := Z.of_nat (nat_of_ascii c) in
  if ((65 <=? n) && (n <=? 90))
     || ((192 <=? n) && (n <=? 222) && negb (n =? 215))
  then ascii_of_nat (nat_of_ascii c + 32)
  else c.

Fixpoint lower (s : string) : string :=
  match s with
  | EmptyString => EmptyString
  | String c s' => String (lower_char c) (lower s')
  end.

(** Truth value of a [str]. *)
Definition truthy (s : string) : bool :=
  match s with
  | EmptyString => false
  | String _ _ => true
  end.

Definition default_max_chars : Z := 220.

(** [safe_first_sentence], lines 43-51; [None] is Python's [None]. *)
Definition safe_first_sentence (text : option string) (max_chars : Z) : string :=
  match text with
  | None => ""
  | Some text =>
      if negb (truthy text) then ""
      else
        let s := replace "  " " " (replace (String LF "") " " (strip text)) in
        let dot := find ". " s in
        let s := if (0 <? dot) && (dot <? max_chars)
                 then slice_to s (dot + 1) else s in
        slice_to s max_chars
  end.

(** ** Prices *)

Definition TICKERS : list (string * string) :=
  [ ("^GSPC", "S&P 500");
    ("^IXIC", "NASDAQ");
    ("^DJI", "Dow Jones");
    ("^VIX", "VIX");
    ("^TNX", "US 10Y") ].

(** One daily bar of a ticker; a missing value is NaN. *)
Record bar : Type := Bar {
  Open : float;
  High : float;
  Low : float;
  Close : float;
  Volume : float
}.

Definition DataFrame : Type := list bar.

(** What [yf.download] returned: with a column MultiIndex, [data[tk]] is the
    frame of ticker [tk] and raises [KeyError] when there is none; with flat
    columns the one frame is used for every ticker. *)
Inductive download : Type :=
  | MultiIndex (per_ticker : string -> option DataFrame)
  | FlatColumns (df : DataFrame).

Definition has_na (r : bar) : bool :=
  is_nan (Open r) || is_nan (High r) || is_nan (Low r)
  || is_nan (Close r) || is_nan (Volume r).

(** [df.dropna()] *)
Definition dropna (df : DataFrame) : DataFrame :=
  filter (fun r => has_na r = false) df.

(** [xs.tail(n)] *)
Definition tail {A : Type} (n : nat) (xs : list A) : list A :=
  drop (length xs - n) xs.

(** [xs[-k]] for [k >= 1] *)
Definition index_from_end {A : Type} (xs : list A) (k : nat) : result A :=
  match k with
  | O => Raise IndexError
  | S _ =>
      if decide (k ≤ length xs)%nat
      then match xs !! (length xs - k)%nat with
           | Some x => Ok x
           | None => Raise IndexError
           end
      else Raise IndexError
  end.
Arguments index_from_end : simpl never.

Record IndexQuote : Type := Quote {
  q_ticker : string;
  q_name : string;
  q_last : float;
  q_chgpct : float
}.

Definition select (data : download) (tk : string) : result DataFrame :=
  match data with
  | MultiIndex per_ticker =>
      match per_ticker tk with
      | Some df => Ok df
      | None => Raise KeyError
      end
  | FlatColumns df => Ok df
  end.

(** The body of the [try] of lines 58-73 for one ticker: [Ok None] is the
    [continue] of line 62, [Ok (Some q)] the row appended at line 68. *)
Definition quote_of (data : download) (tk label : string)
  : result (option IndexQuote) :=
  df ← select data tk;
  let df := dropna df in
  if decide (length df < 2)%nat then Ok None
  else
    let last_two := tail 2 (Close <$> df) in
    prev_close ← index_from_end last_two 2;
    last_close ← index_from_end last_two 1;
    change ← pct (PyFloat last_close) (PyFloat prev_close);
    let display_last :=
      if String.eqb tk "^TNX" then (last_close / 10)%float else last_close in
    Ok (Some {| q_ticker := tk; q_name := label;
                q_last := py_round2 display_last;
                q_chgpct := py_round2 change |}).

(** The loop of lines 57-75 over the remaining tickers; an exception is
    reported on stderr and the ticker passed over. *)
Fixpoint price_rows (data : download) (tickers : list (string * string))
    (rows : list IndexQuote) : list IndexQuote :=
  match tickers with
  | [] => rows
  | (tk, label) :: rest =>
      match quote_of data tk label with
      | Ok (Some q) => price_rows data rest (rows ++ [q])
      | Ok None => price_rows data rest rows
      | Raise _ => price_rows data rest rows
      end
  end.

(** [fetch_prices], lines 53-76, on the frame [yf.download] returned. *)
Definition fetch_prices (data : download) : list IndexQuote :=
  price_rows data TICKERS [].

(** ** News *)

Definition NEWS_LIMIT : nat := 12.
Definition NEWS_PER_SOURCE : nat := 5.

(** A feed entry: the fields the script reads, [None] for an absent key. *)
Record entry : Type := Entry {
  e_title : option string;
  e_link : option string;
  e_summary : option string;
  e_description : option string
}.

Record feed : Type := Feed {
  feed_name : string;
  feed_url : string
}.

Record NewsItem : Type := Item {
  n_title : string;
  n_link : string;
  n_source : string;
  n_summary : string
}.

(** [e.get(key, "")] *)
Definition get (field : option string) : string := default "" field.

(** [a or b] on strings *)
Definition str_or (a b : string) : string := if truthy a then a else b.

(** The inner loop of lines 89-104 over the remaining entries of one feed. *)
Fixpoint feed_entries (src : string) (entries : list entry) (count : nat)
    (items : list NewsItem) : list NewsItem :=
  match entries with
  | [] => items
  | e :: rest =>
      if decide (NEWS_PER_SOURCE ≤ count)%nat then items
      else
        let title := get (e_title e) in
        let link := get (e_link e) in
        let summary := str_or (get (e_summary e)) (get (e_description e)) in
        if negb (truthy title) || negb (truthy link)
        then feed_entries src rest count items
        else
          feed_entries src rest (S count)
            (items ++ [ {| n_title := strip title;
                           n_link := strip link;
                           n_source := src;
                           n_summary :=
                             safe_first_sentence (Some summary) default_max_chars |} ])
  end.

(** The feeds of [rss_sources.yaml] in configured order, each with what
    [feedparser.parse] gave for it in this run: its entries, or an exception. *)
Definition fetched : Type := list (feed * result (list entry)).

(** The loop of lines 85-106. *)
Fixpoint collect (feeds : fetched) (items : list NewsItem) : list NewsItem :=
  match feeds with
  | [] => items
  | (f, parsed) :: rest =>
      match parsed with
      | Ok entries => collect rest (feed_entries (feed_name f) entries 0 items)
      | Raise _ => collect rest items
      end
  end.

(** The loop of lines 109-116. *)
Fixpoint dedup_loop (items : list NewsItem) (seen : gset string)
    (dedup : list NewsItem) : list NewsItem :=
  match items with
  | [] => dedup
  | it :: rest =>
      let key := lower (n_title it) in
      if decide (key ∈ seen) then dedup_loop rest seen dedup
      else dedup_loop rest ({[ key ]} ∪ seen) (dedup ++ [it])
  end.

(** [fetch_news], lines 78-117. *)
Definition fetch_news (feeds : fetched) : list NewsItem :=
  take NEWS_LIMIT (dedup_loop (collect feeds []) ∅ []).

(** ** Rendering of the index table *)

Definition chg_class (r : IndexQuote) : string :=
  if (0 <=? q_chgpct r)%float then "up" else "dn".

Definition nl : string := String LF "".
Definition dq : string := String DQ "".

(** The change cell, line 158. *)
Definition chg_cell (r : IndexQuote) : string :=
  "<td class=" +:+ dq +:+ "chp " +:+ chg_class r +:+ dq +:+ ">"
  +:+ format_plus_2f (q_chgpct r) +:+ "%</td>".

Section Render.
(** [str(x)] of a float, as the template prints [r.last]. *)
Variable py_str : float -> string.

(** The body of the [for r in indices] loop, lines 154-160. *)
Definition render_index_row (r : IndexQuote) : string :=
  nl +:+ "      <tr>" +:+
  nl +:+ "        <td>" +:+ q_name r +:+ "</td>" +:+
  nl +:+ "        <td class=" +:+ dq +:+ "chp" +:+ dq +:+ ">"
     +:+ py_str (q_last r) +:+ "</td>" +:+
  nl +:+ "        " +:+ chg_cell r +:+
  nl +:+ "      </tr>" +:+
  nl +:+ "      ".

Definition render_indices (indices : list IndexQuote) : string :=
  foldr (fun r acc => render_index_row r +:+ acc) "" indices.
End Render.

(** ** Notions the statements use *)

(** The closes of the cleaned history of a ticker, oldest first; empty when
    the download holds no frame for it. *)
Definition valid_closes (data : download) (tk : string) : list float :=
  match select data tk with
  | Ok df => Close <$> dropna df
  | Raise _ => []
  end.

(** The two most recent valid closes [(previous, latest)], when there are two. *)
Definition last_two_closes (data : download) (tk : string)
  : option (float * float) :=
  match reverse (valid_closes data tk) with
  | l :: p :: _ => Some (p, l)
  | _ => None
  end.

(** The rows of the output that belong to ticker [tk]. *)
Definition quotes_for (tk : string) (rows : list IndexQuote) : list IndexQuote :=
  filter (fun q => q_ticker q = tk) rows.

(** What one ticker adds to the output. *)
Definition quote_row (data : download) (t : string * string) : option IndexQuote :=
  match quote_of data t.1 t.2 with
  | Ok (Some q) => Some q
  | _ => None
  end.

(** A divisor that is a zero ([0], [0.0], [-0.0]) or [None]. *)
Definition zero_or_absent (b : pyval) : bool :=
  match b with
  | PyFloat f => (f =? 0)%float
  | PyInt z => z =? 0
  | PyNone => true
  | PyStr _ => false
  end.


(** A download for the examples: ^GSPC has a bar without volume between two
    complete ones, ^DJI a single bar, ^VIX a previous close of zero, ^TNX two
    bars, and ^IXIC is missing. *)
Definition sample_download : download :=
  MultiIndex (fun tk =>
    if String.eqb tk "^GSPC" then
      Some [Bar 99 101 98 100 5000; Bar 100 103 100 101 nan;
            Bar 100 103 99 102 6000]
    else if String.eqb tk "^DJI" then Some [Bar 3 3 3 3 10]
    else if String.eqb tk "^VIX" then Some [Bar 0 0 0 0 0; Bar 5 5 5 5 7]
    else if String.eqb tk "^TNX" then
      Some [Bar 42 42 42 42 0; Bar 42.5 42.75 42.25 42.625 0]
    else None).

(** A float that is neither NaN nor an infinity. *)
Definition finite (x : float) : bool :=
  match Prim2SF x with
  | S754_zero _ | S754_finite _ _ _ => true
  | S754_infinity _ | S754_nan => false
  end.

Definition is_digit (c : ascii) : bool :=
  let n := Z.of_nat (nat_of_ascii c) in (48 <=? n) && (n <=? 57).

Definition is_sign (c : ascii) : bool :=
  Ascii.eqb c "+" || Ascii.eqb c "-".

(** A dot followed by exactly two digits and nothing else. *)
Definition dot_two_digits (s : string) : bool :=
  match s with
  | String c (String d1 (String d2 EmptyString)) =>
      Ascii.eqb c "." && is_digit d1 && is_digit d2
  | _ => false
  end.

(** One or more digits, then a dot and exactly two digits. *)
Fixpoint digits_dot_two (s : string) : bool :=
  match s with
  | EmptyString => false
  | String c rest => is_digit c && (dot_two_digits rest || digits_dot_two rest)
  end.

(** An explicit sign, an integer part, a dot and exactly two decimals. *)
Definition signed_two_decimals (s : string) : bool :=
  match s with
  | EmptyString => false
  | String sg body => is_sign sg && digits_dot_two body
  end.

(** The row format of the specification: the change printed with an explicit
    sign and exactly two decimals, and the class decided at zero. *)
Definition row_as_specified (r : IndexQuote) : Prop :=
  signed_two_decimals (format_plus_2f (q_chgpct r)) = true
  /\ (chg_class r = "up" \/ chg_class r = "dn")
  /\ ((0 <=? q_chgpct r)%float = true -> chg_class r = "up")
  /\ ((q_chgpct r <? 0)%float = true -> chg_class r = "dn").

(** [sub] occurs somewhere in [s]. *)
Fixpoint occurs (sub s : string) : bool :=
  String.prefix sub s
  || match s with
     | EmptyString => false
     | String _ s' => occurs sub s'
     end.

(** The index of the first occurrence of [sub] in [s], if there is one. *)
Fixpoint first_index (sub s : string) : option nat :=
  if String.prefix sub s then Some O
  else
    match s with
    | EmptyString => None
    | String _ s' => S <$> first_index sub s'
    end.

(** The text after stripping and the two replacements of line 46. *)
Definition normalized (text : string) : string :=
  replace "  " " " (replace (String LF "") " " (strip text)).


Definition starts_with_space (s : string) : bool :=
  match s with
  | EmptyString => false
  | String c _ => isspace c
  end.

Fixpoint ends_with_space (s : string) : bool :=
  match s with
  | EmptyString => false
  | String c EmptyString => isspace c
  | String _ s' => ends_with_space s'
  end.

(** No leading or trailing whitespace, no newline, no doubled space. *)
Definition whitespace_clean (s : string) : bool :=
  negb (starts_with_space s) && negb (ends_with_space s)
  && negb (occurs (String LF "") s) && negb (occurs "  " s).

(** No sentence boundary [". "] inside the text. *)
Definition single_sentence (s : string) : bool := negb (occurs ". " s).

(** Within the budget of 220 characters. *)
Definition short (s : string) : bool := (String.length s <=? 220)%nat.

(** An entry with a non-empty title and a non-empty link. *)
Definition valid_entry (e : entry) : bool :=
  truthy (get (e_title e)) && truthy (get (e_link e)).

(** The item built from a valid entry, lines 98-103. *)
Definition to_item (src : string) (e : entry) : NewsItem :=
  {| n_title := strip (get (e_title e));
     n_link := strip (get (e_link e));
     n_source := src;
     n_summary :=
       safe_first_sentence
         (Some (str_or (get (e_summary e)) (get (e_description e))))
         default_max_chars |}.

(** What one feed is to contribute: the items of its first
    [NEWS_PER_SOURCE] valid entries, nothing when parsing failed. *)
Definition contribution (f : feed * result (list entry)) : list NewsItem :=
  match f.2 with
  | Ok entries =>
      take NEWS_PER_SOURCE (to_item (feed_name f.1) <$> filter (fun e => valid_entry e = true) entries)
  | Raise _ => []
  end.

(** The deduplication key of an item, line 112. *)
Definition news_key (it : NewsItem) : string := lower (n_title it).

(** [it] stands in [items] at a place before which no item has its key. *)
Definition first_with_key (it : NewsItem) (items : list NewsItem) : Prop :=
  exists pre post,
    items = pre ++ it :: post /\ forall x, x ∈ pre -> news_key x <> news_key it.

(** Feeds for the examples: the second feed fails to parse, the first has an
    entry without title ahead of its valid ones, the third repeats a title
    of the first in another case. *)
Definition sample_feeds : fetched :=
  [ (Feed "Alpha" "https://alpha.example/rss",
     Ok [ Entry None (Some "https://alpha.example/0") None None;
          Entry (Some "Fed Holds Rates Steady") (Some "https://alpha.example/1")
            (Some "Stocks rose today. Analysts are optimistic.") None;
          Entry (Some " Oil slips ") (Some "https://alpha.example/2")
            None (Some "Crude fell") ]);
    (Feed "Beta" "https://beta.example/rss", Raise KeyError);
    (Feed "Gamma" "https://gamma.example/rss",
     Ok [ Entry (Some "FED HOLDS RATES STEADY") (Some "https://gamma.example/1")
            None None;
          Entry (Some "Gold climbs") (Some "https://gamma.example/2")
            None None ]) ].

(** ** Writing the report *)

Definition OUTPUT_DIR : string := "site".

(** [os.path.join(dir, name)] for a relative [name] and a directory name
    without trailing separator, on POSIX. *)
Definition path_join (dir name : string) : string := dir +:+ "/" +:+ name.

(** The text files of the file system, by path. *)
Abbreviation files := (gmap string string).

(** [with open(path, "w") as f: f.write(content)] *)
Definition write_file (fs : files) (path content : string) : files :=
  <[ path := content ]> fs.

Definition index_path : string := path_join OUTPUT_DIR "index.html".

Definition archive_path (dated : string) : string :=
  path_join OUTPUT_DIR (dated +:+ ".html").

(** The two writes of [main], lines 202-210: [dated] is the run's date as
    [strftime("%Y-%m-%d")] gives it, [html] the rendered page. *)
Definition write_report (fs : files) (dated html : string) : files :=
  let fs := write_file fs index_path html in
  write_file fs (archive_path dated) html.

(** ** Rendering of the news list *)

(** The summary line of line 169, present only for a non-empty summary. *)
Definition summary_line (n : NewsItem) : string :=
  if truthy (n_summary n) then "<div>" +:+ n_summary n +:+ "</div>" else "".

(** The body of the [for n in news] loop, lines 165-171. *)
Definition render_news_item (n : NewsItem) : string :=
  nl +:+ "    <div class=" +:+ dq +:+ "news-item" +:+ dq +:+ ">" +:+
  nl +:+ "      <a href=" +:+ dq +:+ n_link n +:+ dq
     +:+ " target=" +:+ dq +:+ "_blank" +:+ dq
     +:+ " rel=" +:+ dq +:+ "noopener" +:+ dq +:+ ">" +:+ n_title n +:+ "</a>" +:+
  nl +:+ "      <span class=" +:+ dq +:+ "badge" +:+ dq +:+ ">"
     +:+ n_source n +:+ "</span>" +:+
  nl +:+ "      " +:+ summary_line n +:+
  nl +:+ "    </div>" +:+
  nl +:+ "  ".

(** ** The run *)

Section Main.
(** [render_html] with the title and the time of the run fixed: the page for
    the indices and the news. *)
Variable page : list IndexQuote -> list NewsItem -> string.

(** [main], lines 189-212: fetch, render, write; [data] and [feeds] are what
    the two fetches received, [dated] is the date of the run. *)
Definition main (fs : files) (data : download) (feeds : fetched)
    (dated : string) : files :=
  let indices := fetch_prices data in
  let news := fetch_news feeds in
  let html := page indices news in
  write_report fs dated html.
End Main.

(** ** More notions the statements use *)

(** The character [c] stands somewhere in [s]. *)
Fixpoint has_char (c : ascii) (s : string) : bool :=
  match s with
  | EmptyString => false
  | String c' s' => Ascii.eqb c c' || has_char c s'
  end.

(** Every character of [s] is whitespace. *)
Fixpoint all_space (s : string) : bool :=
  match s with
  | EmptyString => true
  | String c s' => isspace c && all_space s'
  end.

(** A [float] or an [int]. *)
Definition is_number (v : pyval) : bool :=
  match v with
  | PyFloat _ | PyInt _ => true
  | PyStr _ | PyNone => false
  end.

(** The row that two valid closes [p], [l] give to a ticker. *)
Definition quote_from_closes (p l : float) (t : string * string) : IndexQuote :=
  {| q_ticker := t.1; q_name := t.2;
     q_last := py_round2 (if String.eqb t.1 "^TNX" then (l / 10)%float else l);
     q_chgpct := py_round2 (if (p =? 0)%float then nan
                            else ((l / p - 1) * 100)%float) |}.

(** The change cell of a NaN change. *)
Definition nan_cell : string :=
  "<td class=" +:+ dq +:+ "chp dn" +:+ dq +:+ ">+nan%</td>".

(** ** Notions for case, hundredths and tenths *)

(** An upper-case letter among the code points below U+0100. *)
Definition is_upper (c : ascii) : bool :=
  let n := Z.of_nat (nat_of_ascii c) in
  ((65 <=? n) && (n <=? 90)) || ((192 <=? n) && (n <=? 222) && negb (n =? 215)).

(** The same character, or an upper-case letter and its lower-case form. *)
Definition same_letter (c d : ascii) : bool :=
  let n := Z.of_nat (nat_of_ascii c) in
  let m := Z.of_nat (nat_of_ascii d) in
  (n =? m) || (is_upper c && (m =? n + 32)) || (is_upper d && (n =? m + 32)).

(** Two texts that differ at most in the case of their letters. *)
Fixpoint equal_ignoring_case (a b : string) : bool :=
  match a, b with
  | EmptyString, EmptyString => true
  | String c a', String d b' => same_letter c d && equal_ignoring_case a' b'
  | _, _ => false
  end.

(** [same_letter] against [lower_char], on all pairs of characters. *)
Definition letters_checked : bool :=
  forallb (fun n =>
    forallb (fun m =>
      Bool.eqb (same_letter (ascii_of_nat n) (ascii_of_nat m))
        (Ascii.eqb (lower_char (ascii_of_nat n)) (lower_char (ascii_of_nat m))))
      (seq 0 256))
    (seq 0 256).

(** Unicode case folding on the code points below U+0100 whose folding
    stays below U+0100: the sharp s (U+00DF) folds to [ss], every other
    character to its lower-case form. *)
Fixpoint casefold (s : string) : string :=
  match s with
  | EmptyString => EmptyString
  | String c s' =>
      if (Z.of_nat (nat_of_ascii c) =? 223) then "ss" +:+ casefold s'
      else String (lower_char c) (casefold s')
  end.

Definition sharp_s : ascii := ascii_of_nat 223.

(** One feed with two titles that fold to the same text and lower-case to
    different ones. *)
Definition strasse_feeds : fetched :=
  [ (Feed "Alpha" "https://alpha.example/rss",
     Ok [ Entry (Some "STRASSE") (Some "https://alpha.example/1") None None;
          Entry (Some ("stra" +:+ String sharp_s "e"))
            (Some "https://alpha.example/2") None None ]) ].

(** The integer nearest to [m * 2^e * k], ties to even. *)
Definition scaled_rne_by (k : Z) (m : positive) (e : Z) : Z :=
  let num := Z.pos m * k in
  if 0 <=? e then Z.shiftl num e
  else
    let den := Z.shiftl 1 (- e) in
    let q := num / den in
    let r := num mod den in
    match 2 * r ?= den with
    | Lt => q
    | Gt => q + 1
    | Eq => if Z.even q then q else q + 1
    end.

(** The double nearest to [n / 100], with the sign [s]. *)
Definition hundredths (s : bool) (n : Z) : float :=
  match n with
  | Z.pos p =>
      SF2Prim (SFdiv prec emax (S754_finite s p 0) (S754_finite false 100 0))
  | _ => SF2Prim (S754_zero s)
  end.

(** [n] is an integer nearest to [100 * |x|] for the finite float [x]: the
    distance, counted in units of [2^e], is at most one half. *)
Definition nearest_hundredths (x : float) (n : Z) : Prop :=
  match Prim2SF x with
  | S754_finite _ m e =>
      if 0 <=? e then n = Z.pos m * 100 * 2 ^ e
      else 2 * Z.abs (n * 2 ^ (- e) - Z.pos m * 100) <= 2 ^ (- e)
  | S754_zero _ => n = 0
  | _ => False
  end.

Definition sign_bit (x : float) : bool :=
  match Prim2SF x with
  | S754_zero s | S754_infinity s | S754_finite s _ _ => s
  | S754_nan => false
  end.

(** The value shown for a float [y]: a number of hundredths nearest to [y]
    when [y] is finite, and [y] itself when it is NaN or an infinity. *)
Definition shown_as_hundredths (y shown : float) : Prop :=
  if finite y
  then exists n, 0 <= n /\ nearest_hundredths y n
                 /\ shown = hundredths (sign_bit y) n
  else shown = y.

(** The tenth of the raw value in exact arithmetic, rounded to hundredths:
    the integer nearest to [10 * x], ties to even. *)
Definition exact_tenth_hundredths (x : float) : Z :=
  match Prim2SF x with
  | S754_finite _ m e => scaled_rne_by 10 m e
  | _ => 0
  end.

(** A download in which ^TNX closes at 31.5 and then at 31.75. *)
Definition tnx_download : download :=
  MultiIndex (fun tk =>
    if String.eqb tk "^TNX"
    then Some [Bar 31.5 31.5 31.5 31.5 0; Bar 31.75 31.75 31.75 31.75 0]
    else None).



(** * Properties *)

(** ** [pct] *)

Lemma pct_floats (l p : float) :
  pct (PyFloat l) (PyFloat p)
  = Ok (if (p =? 0)%float then nan else ((l / p - 1) * 100)%float).
Proof.
  unfold pct, py_truediv, float_div; simpl.
  destruct (p =? 0)%float; reflexivity.
Qed.

Lemma pct_total (a b : pyval) : exists v, pct a b = Ok v.
Proof.
  unfold pct, try_except.
  destruct (py_truediv a b) as [q|e]; simpl; eauto.
Qed.

Lemma truediv_zero_or_absent (a b : pyval) :
  zero_or_absent b = true -> exists e, py_truediv a b = Raise e.
Proof.
  intros Hb. unfold py_truediv.
  destruct b as [f|z| |]; simpl in Hb; try discriminate.
  - destruct a as [x|x| |]; simpl; eauto.
    + unfold float_div. rewrite Hb. eauto.
    + destruct (int_to_float x) as [y|e]; simpl; eauto.
      unfold float_div. rewrite Hb. eauto.
  - apply Z.eqb_eq in Hb. subst z.
    destruct a as [x|x| |]; simpl; eauto.
  - destruct a as [x|x| |]; simpl; eauto.
Qed.

(** C6: [pct] returns a float for every pair of arguments, and the NaN
    sentinel whenever the previous close is a zero or is absent. *)
Theorem pct_never_raises (a b : pyval) :
  (exists v, pct a b = Ok v)
  /\ (zero_or_absent b = true -> pct a b = Ok nan).
Proof.
  split; [apply pct_total|].
  intros Hb. destruct (truediv_zero_or_absent a b Hb) as [e He].
  unfold pct. rewrite He. reflexivity.
Qed.

Lemma pct_never_raises_witness :
  pct (PyFloat 5) (PyFloat 0) = Ok nan
  /\ pct (PyInt 7) (PyInt 0) = Ok nan
  /\ pct (PyFloat 5) PyNone = Ok nan.
Proof.
  split; [|split].
  - apply (proj2 (pct_never_raises (PyFloat 5) (PyFloat 0))). reflexivity.
  - apply (proj2 (pct_never_raises (PyInt 7) (PyInt 0))). reflexivity.
  - apply (proj2 (pct_never_raises (PyFloat 5) PyNone)). reflexivity.
Defined.

(** ** [fetch_prices] *)

Lemma price_rows_omap (data : download) (tickers : list (string * string))
    (rows : list IndexQuote) :
  price_rows data tickers rows = rows ++ omap (quote_row data) tickers.
Proof.
  revert rows.
  induction tickers as [|[tk label] rest IH]; intros rows; simpl.
  - by rewrite app_nil_r.
  - unfold quote_row at 1; simpl.
    destruct (quote_of data tk label) as [[q|]|e]; rewrite IH; try done.
    by rewrite <- app_assoc.
Qed.

Lemma fetch_prices_omap (data : download) :
  fetch_prices data = omap (quote_row data) TICKERS.
Proof. unfold fetch_prices. by rewrite price_rows_omap. Qed.

Lemma quote_row_ticker (data : download) (t : string * string) (q : IndexQuote) :
  quote_row data t = Some q -> q_ticker q = t.1.
Proof.
  unfold quote_row, quote_of.
  destruct (select data t.1) as [df|e]; simpl; [|done].
  destruct (decide _); simpl; [done|].
  destruct (index_from_end (tail 2 _) 2) as [p|e]; simpl; [|done].
  destruct (index_from_end (tail 2 _) 1) as [l|e]; simpl; [|done].
  rewrite pct_floats; simpl.
  intros [= <-]. done.
Qed.

Lemma filter_none {A : Type} (P : A -> Prop) `{forall x, Decision (P x)}
    (l : list A) :
  (forall x, x ∈ l -> ~ P x) -> filter P l = [].
Proof.
  induction l as [|x l IH]; intros Hl; [done|].
  rewrite filter_cons_False by (apply Hl; left).
  apply IH. intros y Hy. apply Hl. by right.
Qed.

Lemma omap_cons' {A B : Type} (f : A -> option B) (x : A) (l : list A) :
  omap f (x :: l)
  = match f x with Some y => y :: omap f l | None => omap f l end.
Proof. reflexivity. Qed.

(** Among the rows made from a list of distinct tickers, those of one ticker
    are the row that this ticker added, if it added one. *)
Lemma quotes_for_omap (data : download) (tickers : list (string * string))
    (tk label : string) :
  NoDup tickers.*1 ->
  (tk, label) ∈ tickers ->
  quotes_for tk (omap (quote_row data) tickers)
  = option_list (quote_row data (tk, label)).
Proof.
  unfold quotes_for.
  induction tickers as [|[tk' label'] rest IH]; intros Hnd Hin.
  - by apply elem_of_nil in Hin.
  - rewrite fmap_cons in Hnd. apply NoDup_cons in Hnd as [Hnotin Hnd].
    rewrite omap_cons'.
    apply elem_of_cons in Hin as [[= <- <-]|Hin].
    + assert (Hrest : filter (fun q => q_ticker q = tk)
                         (omap (quote_row data) rest) = []).
      { apply filter_none. intros q Hq Hqtk.
        apply list_elem_of_omap in Hq as (t & Ht & Hrow).
        apply quote_row_ticker in Hrow.
        apply Hnotin. apply list_elem_of_fmap. exists t.
        split; [|done]. simpl. by rewrite <- Hrow. }
      destruct (quote_row data (tk, label)) as [q|] eqn:Hrow; simpl; [|done].
      apply quote_row_ticker in Hrow as Htk; simpl in Htk.
      rewrite filter_cons_True by done. by rewrite Hrest.
    + assert (tk' <> tk) as Hne.
      { intros ->. apply Hnotin. apply list_elem_of_fmap.
        by exists (tk, label). }
      destruct (quote_row data (tk', label')) as [q|] eqn:Hrow;
        [|by apply IH].
      apply quote_row_ticker in Hrow as Htk; simpl in Htk.
      rewrite filter_cons_False by congruence. by apply IH.
Qed.

Lemma NoDup_TICKERS : NoDup TICKERS.*1.
Proof. apply (bool_decide_unpack _). vm_compute. exact I. Qed.

Lemma quotes_for_fetch_prices (data : download) (tk label : string) :
  (tk, label) ∈ TICKERS ->
  quotes_for tk (fetch_prices data) = option_list (quote_row data (tk, label)).
Proof.
  intros Hin. rewrite fetch_prices_omap.
  by apply quotes_for_omap; [apply NoDup_TICKERS|].
Qed.

Lemma tail_two {A : Type} (xs : list A) (p l : A) :
  tail 2 (xs ++ [p; l]) = [p; l].
Proof.
  unfold tail. rewrite length_app; simpl.
  replace (length xs + 2 - 2)%nat with (length xs) by lia.
  by rewrite drop_app_length.
Qed.

Lemma last_two_closes_Some (data : download) (tk : string) (p l : float) :
  last_two_closes data tk = Some (p, l) ->
  exists cs, valid_closes data tk = cs ++ [p; l].
Proof.
  unfold last_two_closes.
  destruct (reverse (valid_closes data tk)) as [|l' [|p' rest]] eqn:Hrev;
    try done.
  intros [= -> ->]. exists (reverse rest).
  apply (f_equal reverse) in Hrev. rewrite reverse_involutive in Hrev.
  rewrite Hrev. rewrite !reverse_cons. by rewrite <- app_assoc.
Qed.

Lemma last_two_closes_None (data : download) (tk : string) :
  last_two_closes data tk = None -> (length (valid_closes data tk) < 2)%nat.
Proof.
  unfold last_two_closes. rewrite <- (length_reverse (valid_closes data tk)).
  destruct (reverse (valid_closes data tk)) as [|l' [|p' rest]]; simpl;
    try done; lia.
Qed.

(** The row of a ticker with two valid closes. *)
Lemma quote_row_two (data : download) (tk label : string) (p l : float) :
  last_two_closes data tk = Some (p, l) ->
  quote_row data (tk, label)
  = Some {| q_ticker := tk; q_name := label;
            q_last := py_round2 (if String.eqb tk "^TNX"
                                 then (l / 10)%float else l);
            q_chgpct := py_round2 (if (p =? 0)%float then nan
                                   else ((l / p - 1) * 100)%float) |}.
Proof.
  intros Hlast. apply last_two_closes_Some in Hlast as [cs Hcs].
  unfold quote_row, quote_of; simpl.
  unfold valid_closes in Hcs.
  destruct (select data tk) as [df|e]; simpl.
  2:{ by destruct cs. }
  destruct (decide _) as [Hlt|_].
  { rewrite <- (length_fmap Close), Hcs, length_app in Hlt. simpl in Hlt. lia. }
  rewrite Hcs, tail_two. unfold index_from_end; simpl.
  by rewrite pct_floats.
Qed.

(** A ticker with fewer than two valid closes adds no row. *)
Lemma quote_row_few (data : download) (tk label : string) :
  last_two_closes data tk = None -> quote_row data (tk, label) = None.
Proof.
  intros Hlast. apply last_two_closes_None in Hlast.
  unfold quote_row, quote_of; simpl.
  unfold valid_closes in Hlast.
  destruct (select data tk) as [df|e]; simpl; [|done].
  rewrite length_fmap in Hlast.
  by destruct (decide _).
Qed.

Lemma quotes_for_two (data : download) (tk label : string) (p l : float) :
  (tk, label) ∈ TICKERS ->
  last_two_closes data tk = Some (p, l) ->
  quotes_for tk (fetch_prices data)
  = [ {| q_ticker := tk; q_name := label;
         q_last := py_round2 (if String.eqb tk "^TNX"
                              then (l / 10)%float else l);
         q_chgpct := py_round2 (if (p =? 0)%float then nan
                                else ((l / p - 1) * 100)%float) |} ].
Proof.
  intros Hin Hlast.
  rewrite (quotes_for_fetch_prices data tk label Hin).
  by rewrite (quote_row_two data tk label p l Hlast).
Qed.

Lemma quotes_for_few (data : download) (tk label : string) :
  (tk, label) ∈ TICKERS ->
  last_two_closes data tk = None ->
  quotes_for tk (fetch_prices data) = [].
Proof.
  intros Hin Hlast.
  rewrite (quotes_for_fetch_prices data tk label Hin).
  by rewrite (quote_row_few data tk label Hlast).
Qed.





(** For a value with a fraction, [scaled_rne m e] is within one half of
    [m * 2^e * 100]. *)
Lemma scaled_rne_nearest (m : positive) (e : Z) :
  e < 0 ->
  2 * Z.abs (scaled_rne m e * 2 ^ (- e) - Z.pos m * 100) <= 2 ^ (- e).
Proof.
  intros He. unfold scaled_rne.
  rewrite (proj2 (Z.leb_gt 0 e) He).
  rewrite Z.shiftl_1_l.
  set (den := 2 ^ (- e)). set (num := Z.pos m * 100).
  assert (0 < den) as Hden by (apply Z.pow_pos_nonneg; lia).
  pose proof (Z.div_mod num den ltac:(lia)) as Hdm.
  pose proof (Z.mod_pos_bound num den Hden) as Hr.
  set (q := num / den) in *. set (r := num mod den) in *.
  clearbody q r den num.
  assert (Hq : q * den - num = - r) by (rewrite Hdm; ring).
  assert (Hq1 : (q + 1) * den - num = den - r) by (rewrite Hdm; ring).
  destruct (2 * r ?= den) eqn:Hcmp.
  - apply Z.compare_eq in Hcmp.
    destruct (Z.even q); rewrite ?Hq, ?Hq1; clear Hdm Hq Hq1; lia.
  - rewrite Z.compare_lt_iff in Hcmp. rewrite Hq. clear Hdm Hq Hq1. lia.
  - rewrite Z.compare_gt_iff in Hcmp. rewrite Hq1. clear Hdm Hq Hq1. lia.
Qed.

Lemma scaled_rne_nonneg (m : positive) (e : Z) : 0 <= scaled_rne m e.
Proof.
  unfold scaled_rne. destruct (0 <=? e) eqn:He.
  - apply Z.shiftl_nonneg. lia.
  - assert (0 < Z.shiftl 1 (- e)) as Hden.
    { rewrite Z.shiftl_1_l. apply Z.pow_pos_nonneg; lia. }
    assert (0 <= Z.pos m * 100 / Z.shiftl 1 (- e)) as Hq
      by (apply Z.div_pos; lia).
    destruct (2 * ((Z.pos m * 100) mod Z.shiftl 1 (- e)) ?= Z.shiftl 1 (- e));
      try lia.
    destruct (Z.even _); lia.
Qed.

(** What [round(y, 2)] gives is a number of hundredths nearest to [y]. *)
Lemma py_round2_shown (y : float) : shown_as_hundredths y (py_round2 y).
Proof.
  unfold shown_as_hundredths, finite, py_round2, nearest_hundredths, sign_bit.
  destruct (Prim2SF y) as [s|s| |s m e] eqn:Hy; try reflexivity.
  - exists 0. split; [lia|]. split; [done|].
    cbn [hundredths]. by rewrite <- Hy, SF2Prim_Prim2SF.
  - exists (scaled_rne m e). split; [apply scaled_rne_nonneg|]. split.
    + destruct (0 <=? e) eqn:He.
      * unfold scaled_rne. rewrite He. apply Z.leb_le in He.
        by rewrite Z.shiftl_mul_pow2.
      * apply scaled_rne_nearest. by apply Z.leb_gt.
    + unfold hundredths. by destruct (scaled_rne m e).
Qed.

(** C5, as the specification words it (exactly one tenth, rounded to two
    decimals), fails on a raw yield of 31.75: one tenth is 3.175, which
    rounds to 3.18, while the quotient 31.75 / 10.0 is a double just below
    3.175 and the row shows 3.17. *)
Lemma tnx_exact_tenth :
  last_two_closes tnx_download "^TNX" = Some (31.5%float, 31.75%float)
  /\ exact_tenth_hundredths 31.75 = 318
  /\ quotes_for "^TNX" (fetch_prices tnx_download)
     = [ Quote "^TNX" "US 10Y" (hundredths false 317) (hundredths false 79) ]
  /\ ~ (exists q, q ∈ fetch_prices tnx_download
                  /\ q_ticker q = "^TNX"
                  /\ q_last q
                     = hundredths false (exact_tenth_hundredths 31.75)).
Proof.
  split; [reflexivity|]. split; [reflexivity|].
  assert (Hrows : quotes_for "^TNX" (fetch_prices tnx_download)
                  = [ Quote "^TNX" "US 10Y" (hundredths false 317)
                        (hundredths false 79) ]) by reflexivity.
  split; [exact Hrows|].
  intros (q & Hq & Htk & Hlast).
  assert (Hq' : q ∈ quotes_for "^TNX" (fetch_prices tnx_download)).
  { unfold quotes_for. apply list_elem_of_filter. by split. }
  rewrite Hrows in Hq'. apply list_elem_of_singleton in Hq'. subst q.
  cbn [q_last] in Hlast.
  assert (Hlt : (hundredths false 317 <? hundredths false 318)%float = true)
    by reflexivity.
  rewrite Hlast in Hlt. revert Hlt. by vm_compute.
Qed.

(** C5, amended: with two valid closes, the row of ^TNX shows the quotient
    of the latest close by 10, computed in floating point and rounded by
    [round(., 2)], that is, a number of hundredths nearest to that quotient;
    the row of any other configured ticker shows its latest close rounded
    in the same way, unscaled. *)
Theorem fetch_prices_last (data : download) (tk label : string) (p l : float) :
  (tk, label) ∈ TICKERS ->
  last_two_closes data tk = Some (p, l) ->
  exists q, quotes_for tk (fetch_prices data) = [q]
            /\ (tk = "^TNX" ->
                q_last q = py_round2 (l / 10)%float
                /\ shown_as_hundredths (l / 10)%float (q_last q))
            /\ (tk <> "^TNX" ->
                q_last q = py_round2 l
                /\ shown_as_hundredths l (q_last q)).
Proof.
  intros Hin Hlast. eexists. split; [by apply quotes_for_two|].
  simpl. split.
  - intros ->. split; [reflexivity|]. cbn [String.eqb]. apply py_round2_shown.
  - intros Hne. apply String.eqb_neq in Hne. rewrite Hne.
    split; [reflexivity|apply py_round2_shown].
Qed.

Lemma fetch_prices_last_witness :
  (exists q, quotes_for "^TNX" (fetch_prices sample_download) = [q]
             /\ ("^TNX" = "^TNX" ->
                 q_last q = py_round2 (42.625 / 10)%float
                 /\ shown_as_hundredths (42.625 / 10)%float (q_last q))
             /\ ("^TNX" <> "^TNX" ->
                 q_last q = py_round2 42.625%float
                 /\ shown_as_hundredths 42.625%float (q_last q)))
  /\ (exists q, quotes_for "^GSPC" (fetch_prices sample_download) = [q]
             /\ ("^GSPC" = "^TNX" ->
                 q_last q = py_round2 (102 / 10)%float
                 /\ shown_as_hundredths (102 / 10)%float (q_last q))
             /\ ("^GSPC" <> "^TNX" ->
                 q_last q = py_round2 102%float
                 /\ shown_as_hundredths 102%float (q_last q))).
Proof.
  split.
  - refine (fetch_prices_last sample_download "^TNX" "US 10Y" 42 42.625 _ _).
    + do 4 right. left.
    + reflexivity.
  - refine (fetch_prices_last sample_download "^GSPC" "S&P 500" 100 102 _ _).
    + left.
    + reflexivity.
Defined.

(** C9: a configured ticker with two valid closes whose previous close is
    zero keeps its row, with the NaN sentinel as change; a ticker has no row
    exactly when it has fewer than two valid closes. *)
Theorem zero_prev_close_kept (data : download) (tk label : string) :
  (tk, label) ∈ TICKERS ->
  (forall p l,
      last_two_closes data tk = Some (p, l) ->
      (p =? 0)%float = true ->
      exists q, quotes_for tk (fetch_prices data) = [q]
                /\ q_chgpct q = py_round2 nan
                /\ q_chgpct q = nan)
  /\ (quotes_for tk (fetch_prices data) = []
      <-> last_two_closes data tk = None).
Proof.
  intros Hin. split.
  - intros p l Hlast Hp. eexists. split; [by apply quotes_for_two|].
    simpl. rewrite Hp. by split.
  - split.
    + destruct (last_two_closes data tk) as [[p l]|] eqn:Hlast; [|done].
      by rewrite (quotes_for_two data tk label p l Hin Hlast).
    + by apply (quotes_for_few data tk label).
Qed.

Lemma zero_prev_close_kept_witness :
  exists q, quotes_for "^VIX" (fetch_prices sample_download) = [q]
            /\ q_chgpct q = py_round2 nan
            /\ q_chgpct q = nan.
Proof.
  refine (proj1 (zero_prev_close_kept sample_download "^VIX" "VIX" _) 0%float 5%float _ _).
  - do 3 right. left.
  - reflexivity.
  - reflexivity.
Defined.

(** ** The index row of [render_html] *)

Lemma is_digit_digit_char (d : Z) :
  0 <= d <= 9 -> is_digit (digit_char d) = true.
Proof.
  intros Hd.
  assert (d = 0 \/ d = 1 \/ d = 2 \/ d = 3 \/ d = 4 \/ d = 5 \/ d = 6
          \/ d = 7 \/ d = 8 \/ d = 9) as Hcases by lia.
  repeat (destruct Hcases as [->|Hcases]; [reflexivity|]).
  by subst d.
Qed.

Lemma append_cons (c : ascii) (a b : string) :
  String c a +:+ b = String c (a +:+ b).
Proof. reflexivity. Qed.

Lemma digits_dot_two_cons (c : ascii) (rest : string) :
  digits_dot_two (String c rest)
  = is_digit c && (dot_two_digits rest || digits_dot_two rest).
Proof. reflexivity. Qed.

Lemma digits_dot_two_app (d1 d2 : ascii) (c : ascii) (u : Decimal.uint) :
  is_digit c = true -> is_digit d1 = true -> is_digit d2 = true ->
  digits_dot_two
    (String c (NilEmpty.string_of_uint u) +:+ "." +:+ String d1 (String d2 ""))
  = true.
Proof.
  intros Hc H1 H2. revert c Hc.
  induction u; intros c Hc;
    cbn [NilEmpty.string_of_uint];
    rewrite append_cons, digits_dot_two_cons, Hc; cbn [andb];
    try (apply orb_true_iff; right; by apply IHu).
  simpl. by rewrite H1, H2.
Qed.

Lemma digits_dot_two_decimal (n : Z) (d1 d2 : ascii) :
  is_digit d1 = true -> is_digit d2 = true ->
  digits_dot_two (decimal n +:+ "." +:+ String d1 (String d2 "")) = true.
Proof.
  intros H1 H2. unfold decimal.
  destruct (N.to_uint (Z.to_N n)) as [|u|u|u|u|u|u|u|u|u|u] eqn:Hu;
    try (by apply (digits_dot_two_app d1 d2 _ u)).
  exfalso. destruct (Z.to_N n) as [|p]; [discriminate|].
  by apply (Unsigned.to_uint_nonnil p).
Qed.

Lemma format_finite (x : float) :
  finite x = true -> signed_two_decimals (format_plus_2f x) = true.
Proof.
  unfold finite, format_plus_2f.
  destruct (Prim2SF x) as [s|s| |s m e]; try discriminate; intros _.
  - by destruct s.
  - cbn [signed_two_decimals].
    replace (is_sign (sign_char s)) with true by (by destruct s).
    apply digits_dot_two_decimal; apply is_digit_digit_char.
    + pose proof (Z.mod_pos_bound (scaled_rne m e) 100 ltac:(lia)) as Hm.
      split; [apply Z.div_pos; lia|].
      apply Z.lt_succ_r. apply Z.div_lt_upper_bound; lia.
    + pose proof (Z.mod_pos_bound (scaled_rne m e) 10 ltac:(lia)). lia.
Qed.

Lemma chg_class_cases (r : IndexQuote) :
  chg_class r = "up" \/ chg_class r = "dn".
Proof. unfold chg_class. destruct (0 <=? q_chgpct r)%float; auto. Qed.

Lemma negative_not_nonnegative (x : float) :
  (x <? 0)%float = true -> (0 <=? x)%float = false.
Proof.
  rewrite ltb_spec, leb_spec.
  change (Prim2SF 0) with (S754_zero false).
  destruct (Prim2SF x) as [s|s| |s m e]; try discriminate;
    unfold SFltb, SFleb; simpl; destruct s; try discriminate; reflexivity.
Qed.

Lemma chg_class_threshold (r : IndexQuote) :
  (chg_class r = "up" \/ chg_class r = "dn")
  /\ ((0 <=? q_chgpct r)%float = true -> chg_class r = "up")
  /\ ((q_chgpct r <? 0)%float = true -> chg_class r = "dn").
Proof.
  split; [apply chg_class_cases|]. unfold chg_class. split.
  - by intros ->.
  - intros Hneg. by rewrite (negative_not_nonnegative _ Hneg).
Qed.


(** A row whose change is finite prints it with an explicit sign and two
    decimals, and gets its class by the threshold at zero. *)
Lemma render_row_finite (r : IndexQuote) :
  finite (q_chgpct r) = true -> row_as_specified r.
Proof.
  intros Hfin. split; [by apply format_finite|apply chg_class_threshold].
Qed.

(** The two examples of the specification: closes 100 then 102 give [+2.00%]
    with [up], closes 100 then 98 give [-2.00%] with [dn]. *)
Example render_up_down :
  chg_cell (Quote "^GSPC" "S&P 500" 102 (py_round2 ((102 / 100 - 1) * 100)))
  = "<td class=" +:+ dq +:+ "chp up" +:+ dq +:+ ">+2.00%</td>"
  /\ chg_cell (Quote "^GSPC" "S&P 500" 98 (py_round2 ((98 / 100 - 1) * 100)))
     = "<td class=" +:+ dq +:+ "chp dn" +:+ dq +:+ ">-2.00%</td>".
Proof. split; reflexivity. Qed.

(** ** [safe_first_sentence] *)

Lemma str_take_all (n : nat) (s : string) :
  (String.length s <= n)%nat -> str_take n s = s.
Proof.
  revert n. induction s as [|c s IH]; intros [|n] Hn; simpl in *;
    try reflexivity; try lia.
  f_equal. apply IH. lia.
Qed.

Lemma str_take_length (n : nat) (s : string) :
  (String.length (str_take n s) <= n)%nat.
Proof.
  revert s. induction n as [|n IH]; intros [|c s]; simpl; try lia.
  specialize (IH s). lia.
Qed.

Lemma str_take_app (pre rest : string) :
  str_take (String.length pre) (pre +:+ rest) = pre.
Proof. induction pre as [|c pre IH]; simpl; [by destruct rest|by f_equal]. Qed.

Lemma slice_to_nonneg (s : string) (k : Z) :
  0 <= k -> slice_to s k = str_take (Z.to_nat k) s.
Proof. intros Hk. unfold slice_to. by rewrite (proj2 (Z.ltb_ge k 0) Hk). Qed.

Lemma find_from_first_index (sub s : string) (i : Z) :
  find_from sub i s
  = match first_index sub s with
    | Some k => i + Z.of_nat k
    | None => -1
    end.
Proof.
  revert i. induction s as [|c s IH]; intros i; cbn [find_from first_index].
  - destruct (String.prefix sub ""); [lia|done].
  - destruct (String.prefix sub (String c s)); [lia|].
    rewrite IH. destruct (first_index sub s) as [k|]; simpl; lia.
Qed.

Lemma find_first_index (sub s : string) :
  find sub s
  = match first_index sub s with
    | Some k => Z.of_nat k
    | None => -1
    end.
Proof.
  unfold find. rewrite find_from_first_index.
  by destruct (first_index sub s).
Qed.


Lemma prefix_spec (a s : string) :
  String.prefix a s = true <-> exists post, s = a +:+ post.
Proof.
  revert s. induction a as [|c a IH]; intros s; simpl.
  - split; [|by destruct s]. intros _. by exists s.
  - destruct s as [|c' s].
    + split; [done|]. by intros [post Hpost].
    + cbn [String.prefix]. destruct (Ascii.ascii_dec c c') as [<-|Hne].
      * rewrite IH. split; intros [post Hpost]; exists post.
        -- by rewrite Hpost.
        -- by injection Hpost.
      * split; [done|]. intros [post Hpost]. by injection Hpost.
Qed.

(** [first_index] finds an occurrence, and no occurrence begins before it. *)
Lemma first_index_Some (sub s : string) (i : nat) :
  first_index sub s = Some i ->
  (exists pre post, s = pre +:+ sub +:+ post /\ String.length pre = i)
  /\ (forall pre post, s = pre +:+ sub +:+ post -> (i <= String.length pre)%nat).
Proof.
  revert i. induction s as [|c s IH]; intros i.
  - cbn [first_index]. destruct (String.prefix sub "") eqn:Hp; [|done].
    intros [= <-]. apply prefix_spec in Hp as [post Hpost].
    split; [|intros; lia]. by exists "", post.
  - cbn [first_index]. destruct (String.prefix sub (String c s)) eqn:Hp.
    + intros [= <-]. apply prefix_spec in Hp as [post Hpost].
      split; [|intros; lia]. by exists "", post.
    + destruct (first_index sub s) as [k|] eqn:Hk; [|done].
      intros [= <-]. destruct (IH k eq_refl) as [(pre & post & Hs & Hlen) Hmin].
      split.
      * exists (String c pre), post. split; [by rewrite Hs|simpl; lia].
      * intros [|c' pre'] post' Hs'.
        -- exfalso. assert (String.prefix sub (String c s) = true) as Hp'
             by (apply prefix_spec; by exists post').
           congruence.
        -- injection Hs' as _ Hs'. specialize (Hmin _ _ Hs'). simpl. lia.
Qed.

Lemma first_index_None (sub s : string) :
  first_index sub s = None -> forall pre post, s <> pre +:+ sub +:+ post.
Proof.
  induction s as [|c s IH]; cbn [first_index].
  - destruct (String.prefix sub "") eqn:Hp; [done|]. intros _ pre post Hs.
    destruct pre; [|done].
    assert (String.prefix sub "" = true) by (apply prefix_spec; by exists post).
    congruence.
  - destruct (String.prefix sub (String c s)) eqn:Hp; [done|].
    destruct (first_index sub s) as [k|] eqn:Hk; [done|].
    intros _ [|c' pre] post Hs.
    + assert (String.prefix sub (String c s) = true)
        by (apply prefix_spec; by exists post).
      congruence.
    + injection Hs as _ Hs. by apply (IH eq_refl pre post).
Qed.

Lemma first_index_occurs (sub s : string) :
  first_index sub s = None <-> occurs sub s = false.
Proof.
  induction s as [|c s IH]; cbn [first_index occurs].
  - destruct (String.prefix sub ""); simpl; split; congruence.
  - destruct (String.prefix sub (String c s)); simpl; [split; congruence|].
    rewrite <- IH. destruct (first_index sub s); simpl; split; congruence.
Qed.

Lemma str_take_take (n k : nat) (s : string) :
  (k <= n)%nat -> str_take n (str_take k s) = str_take k s.
Proof.
  intros Hkn. apply str_take_all.
  pose proof (str_take_length k s). lia.
Qed.


(** What [safe_first_sentence] returns on a non-empty text, by the position
    of the first [". "] of the normalized text. *)
Lemma safe_first_sentence_cases (t : string) :
  truthy t = true ->
  safe_first_sentence (Some t) default_max_chars
  = match first_index ". " (normalized t) with
    | Some (S k) =>
        if (S k <? 220)%nat then str_take (S (S k)) (normalized t)
        else str_take 220 (normalized t)
    | _ => str_take 220 (normalized t)
    end.
Proof.
  intros Ht. unfold safe_first_sentence, default_max_chars.
  rewrite Ht. cbn [negb].
  fold (normalized t). set (s := normalized t).
  rewrite find_first_index.
  destruct (first_index ". " s) as [[|k]|] eqn:Hk; [reflexivity| |reflexivity].
  destruct (S k <? 220)%nat eqn:Hlt.
  - apply Nat.ltb_lt in Hlt.
    replace (0 <? Z.of_nat (S k)) with true by (symmetry; apply Z.ltb_lt; lia).
    replace (Z.of_nat (S k) <? 220) with true
      by (symmetry; apply Z.ltb_lt; lia).
    cbn [andb]. rewrite !slice_to_nonneg by lia.
    replace (Z.to_nat (Z.of_nat (S k) + 1)) with (S (S k)) by lia.
    apply str_take_take. change (Z.to_nat 220) with 220%nat. lia.
  - apply Nat.ltb_ge in Hlt.
    replace (Z.of_nat (S k) <? 220) with false
      by (symmetry; apply Z.ltb_ge; lia).
    rewrite andb_false_r. reflexivity.
Qed.


Lemma lstrip_clean (s : string) : starts_with_space s = false -> lstrip s = s.
Proof. destruct s as [|c s]; simpl; [done|]. by intros ->. Qed.

Lemma rstrip_clean (s : string) : ends_with_space s = false -> rstrip s = s.
Proof.
  induction s as [|c s IH]; [done|].
  destruct s as [|c' s'].
  - simpl. by intros ->.
  - intros Hs. change (ends_with_space (String c' s') = false) in Hs.
    cbn [rstrip]. cbn [rstrip] in IH. rewrite (IH Hs). reflexivity.
Qed.

Lemma replace_absent (old new s : string) :
  occurs old s = false -> replace old new s = s.
Proof.
  unfold replace. induction s as [|c s IH]; [done|].
  cbn [occurs replace_from]. intros Hocc.
  apply orb_false_iff in Hocc as [Hp Hocc].
  rewrite Hp. f_equal. by apply IH.
Qed.

Lemma whitespace_clean_parts (s : string) :
  whitespace_clean s = true ->
  starts_with_space s = false /\ ends_with_space s = false
  /\ occurs (String LF "") s = false /\ occurs "  " s = false.
Proof.
  unfold whitespace_clean. rewrite !andb_true_iff, !negb_true_iff. tauto.
Qed.

(** A text with clean whitespace is its own normal form. *)
Lemma normalized_clean (s : string) : whitespace_clean s = true -> normalized s = s.
Proof.
  intros (Hlead & Htrail & Hlf & Hdbl)%whitespace_clean_parts.
  unfold normalized, strip.
  rewrite (lstrip_clean s Hlead), (rstrip_clean s Htrail).
  by rewrite (replace_absent _ _ s Hlf), (replace_absent _ _ s Hdbl).
Qed.

(** A short, clean text with no sentence boundary is its own excerpt. *)
Lemma safe_first_sentence_fixed (x : string) :
  short x = true -> single_sentence x = true -> whitespace_clean x = true ->
  safe_first_sentence (Some x) default_max_chars = x.
Proof.
  unfold short, single_sentence.
  intros Hshort%Nat.leb_le Hsingle%negb_true_iff Hclean.
  destruct (truthy x) eqn:Hx; [|by destruct x].
  rewrite (safe_first_sentence_cases x Hx), (normalized_clean x Hclean).
  rewrite (proj2 (first_index_occurs ". " x) Hsingle).
  by apply str_take_all.
Qed.

Lemma str_append_assoc (a b c : string) : (a +:+ b) +:+ c = a +:+ (b +:+ c).
Proof.
  induction a as [|x a IH]; [done|].
  rewrite !append_cons. by f_equal.
Qed.

Lemma str_length_app (a b : string) :
  String.length (a +:+ b) = (String.length a + String.length b)%nat.
Proof.
  induction a as [|x a IH]; [done|].
  rewrite append_cons. simpl. by f_equal.
Qed.

Lemma str_take_split (n : nat) (s : string) :
  exists rest, s = str_take n s +:+ rest.
Proof.
  revert s. induction n as [|n IH]; intros [|c s]; simpl;
    try (by eexists).
  destruct (IH s) as [rest Hrest]. exists rest.
  rewrite append_cons. by rewrite <- Hrest.
Qed.

Lemma prefix_take (sub s : string) (n : nat) :
  String.prefix sub (str_take n s) = true -> String.prefix sub s = true.
Proof.
  rewrite !prefix_spec. intros [post Hpost].
  destruct (str_take_split n s) as [rest Hrest].
  exists (post +:+ rest). by rewrite Hrest, Hpost, str_append_assoc.
Qed.

Lemma occurs_take (sub s : string) (n : nat) :
  occurs sub s = false -> occurs sub (str_take n s) = false.
Proof.
  revert n. induction s as [|c s IH]; intros n Hocc.
  - by destruct n.
  - cbn [occurs] in Hocc. apply orb_false_iff in Hocc as [Hp Hocc].
    destruct (occurs sub (str_take n (String c s))) eqn:Ht; [|done].
    exfalso. destruct n as [|n].
    + cbn [str_take occurs] in Ht. rewrite orb_false_r in Ht.
      apply (prefix_take sub (String c s) 0) in Ht. congruence.
    + cbn [str_take occurs] in Ht. apply orb_true_iff in Ht as [Ht|Ht].
      * apply (prefix_take sub (String c s) (S n)) in Ht. congruence.
      * rewrite (IH n Hocc) in Ht. done.
Qed.

Lemma ends_with_space_dot (pre : string) : ends_with_space (pre +:+ ".") = false.
Proof.
  induction pre as [|c pre IH]; [done|].
  destruct pre as [|c' pre']; [done|]. exact IH.
Qed.

Lemma starts_with_space_take (n : nat) (s : string) :
  starts_with_space (str_take (S n) s) = starts_with_space s.
Proof. by destruct s. Qed.

(** The text up to the first [". "], period included, has no [". "]. *)
Lemma first_sentence_single (x : string) (k : nat) :
  first_index ". " x = Some k ->
  exists pre, str_take (S k) x = pre +:+ "."
              /\ occurs ". " (pre +:+ ".") = false.
Proof.
  intros Hk.
  destruct (first_index_Some _ _ _ Hk) as [(pre & post & Hx & Hlen) Hmin].
  exists pre. split.
  - rewrite Hx. replace (S k) with (String.length (pre +:+ ".")).
    + change (". " +:+ post) with ("." +:+ " " +:+ post).
      rewrite <- str_append_assoc. apply str_take_app.
    + rewrite str_length_app. simpl. lia.
  - destruct (occurs ". " (pre +:+ ".")) eqn:Hocc; [|done]. exfalso.
    destruct (first_index ". " (pre +:+ ".")) as [j|] eqn:Hj.
    2:{ apply first_index_occurs in Hj. congruence. }
    destruct (first_index_Some _ _ _ Hj) as [(p1 & p2 & Hp & Hl) _].
    assert (Hx' : x = p1 +:+ ". " +:+ (p2 +:+ " " +:+ post)).
    { rewrite Hx. change (". " +:+ post) with ("." +:+ " " +:+ post).
      rewrite <- (str_append_assoc pre "."), Hp.
      by rewrite !str_append_assoc. }
    specialize (Hmin _ _ Hx').
    apply (f_equal String.length) in Hp.
    rewrite !str_length_app in Hp. simpl in Hp. lia.
Qed.

(** C8: on a text within the budget and with clean whitespace, a single
    sentence in particular, excerpting twice gives what excerpting once
    gives. *)
Theorem safe_first_sentence_idempotent (x : string) :
  short x = true -> whitespace_clean x = true ->
  safe_first_sentence
    (Some (safe_first_sentence (Some x) default_max_chars)) default_max_chars
  = safe_first_sentence (Some x) default_max_chars.
Proof.
  intros Hshort Hclean.
  destruct (single_sentence x) eqn:Hsingle.
  { by rewrite !(safe_first_sentence_fixed x Hshort Hsingle Hclean). }
  destruct (truthy x) eqn:Hx; [|by destruct x].
  pose proof (normalized_clean x Hclean) as Hnorm.
  assert (Hall : str_take 220 x = x).
  { apply str_take_all. by apply Nat.leb_le. }
  rewrite (safe_first_sentence_cases x Hx), Hnorm, Hall.
  destruct (first_index ". " x) as [[|k]|] eqn:Hk.
  - by rewrite (safe_first_sentence_cases x Hx), Hnorm, Hk.
  - destruct (S k <? 220)%nat eqn:Hlt.
    2:{ by rewrite (safe_first_sentence_cases x Hx), Hnorm, Hk, Hlt. }
    apply Nat.ltb_lt in Hlt.
    destruct (first_sentence_single x (S k) Hk) as (pre & Hpre & Hocc).
    apply safe_first_sentence_fixed.
    + unfold short. apply Nat.leb_le.
      pose proof (str_take_length (S (S k)) x). lia.
    + unfold single_sentence. by rewrite Hpre, Hocc.
    + apply whitespace_clean_parts in Hclean as (Hlead & _ & Hlf & Hdbl).
      unfold whitespace_clean.
      rewrite starts_with_space_take, Hlead.
      rewrite (occurs_take _ x _ Hlf), (occurs_take _ x _ Hdbl).
      by rewrite Hpre, ends_with_space_dot.
  - by rewrite (safe_first_sentence_cases x Hx), Hnorm, Hk.
Qed.

Lemma safe_first_sentence_idempotent_witness :
  safe_first_sentence
    (Some (safe_first_sentence (Some "Stocks rose today.") default_max_chars))
    default_max_chars
  = safe_first_sentence (Some "Stocks rose today.") default_max_chars.
Proof.
  apply (safe_first_sentence_idempotent "Stocks rose today."); reflexivity.
Defined.

(** The example of the specification. *)
Example safe_first_sentence_example :
  safe_first_sentence
    (Some "Stocks rose today. Analysts are optimistic about next quarter and beyond.")
    default_max_chars
  = "Stocks rose today.".
Proof. reflexivity. Qed.

(** ** [fetch_news]: collection *)

Lemma feed_entries_spec (src : string) (entries : list entry) (count : nat)
    (items : list NewsItem) :
  feed_entries src entries count items
  = items ++ take (NEWS_PER_SOURCE - count)
               (to_item src <$> filter (fun e => valid_entry e = true) entries).
Proof.
  revert count items.
  induction entries as [|e rest IH]; intros count items; cbn [feed_entries].
  - by rewrite filter_nil, fmap_nil, take_nil, app_nil_r.
  - destruct (decide (NEWS_PER_SOURCE <= count)%nat) as [Hfull|Hroom].
    { replace (NEWS_PER_SOURCE - count)%nat with O by lia.
      by rewrite take_0, app_nil_r. }
    assert (Hcond : negb (truthy (get (e_title e)))
                    || negb (truthy (get (e_link e))) = negb (valid_entry e)).
    { unfold valid_entry.
      by destruct (truthy (get (e_title e))), (truthy (get (e_link e))). }
    rewrite Hcond. clear Hcond.
    destruct (valid_entry e) eqn:Hv; cbn [negb].
    + rewrite filter_cons_True by done.
      rewrite IH, <- app_assoc. f_equal.
      replace (NEWS_PER_SOURCE - count)%nat
        with (S (NEWS_PER_SOURCE - S count)) by lia.
      reflexivity.
    + rewrite filter_cons_False by (rewrite Hv; done). apply IH.
Qed.

Lemma collect_spec (feeds : fetched) (items : list NewsItem) :
  collect feeds items = items ++ concat (contribution <$> feeds).
Proof.
  revert items. induction feeds as [|[f parsed] rest IH]; intros items;
    cbn [collect].
  - by rewrite app_nil_r.
  - rewrite fmap_cons. cbn [concat]. unfold contribution at 1; simpl.
    destruct parsed as [entries|e].
    + rewrite IH, feed_entries_spec, <- app_assoc. f_equal.
    + by rewrite IH.
Qed.

Lemma contribution_length (f : feed * result (list entry)) :
  (length (contribution f) <= NEWS_PER_SOURCE)%nat.
Proof.
  unfold contribution. destruct (f.2); [|simpl; lia].
  rewrite length_take. lia.
Qed.

(** C10: in the loop over one feed, started with a counter of zero on
    whatever the earlier feeds collected, the items of the first
    [NEWS_PER_SOURCE] valid entries are appended: an entry without title or
    link leaves the counter as it is, so the feed gives [NEWS_PER_SOURCE]
    items as soon as it has that many valid entries, wherever the invalid
    ones stand; and what [fetch_news] collects is, feed after feed, the items
    of the first [NEWS_PER_SOURCE] valid entries of each parsed feed. *)
Theorem quota_counts_accepted_entries (src : string) (entries : list entry)
    (items : list NewsItem) :
  feed_entries src entries 0 items
  = items ++ take NEWS_PER_SOURCE
               (to_item src <$> filter (fun e => valid_entry e = true) entries)
  /\ length (feed_entries src entries 0 items)
     = (length items
        + Nat.min NEWS_PER_SOURCE
            (length (filter (fun e => valid_entry e = true) entries)))%nat
  /\ (forall bad,
        Forall (fun e => valid_entry e = false) bad ->
        feed_entries src (bad ++ entries) 0 items
        = feed_entries src entries 0 items)
  /\ (forall feeds, collect feeds items
                    = items ++ concat (contribution <$> feeds)).
Proof.
  rewrite !feed_entries_spec.
  replace (NEWS_PER_SOURCE - 0)%nat with NEWS_PER_SOURCE by lia.
  split; [done|].
  split; [by rewrite length_app, length_take, length_fmap|].
  split; [|intros feeds; apply collect_spec].
  intros bad Hbad. rewrite !feed_entries_spec.
  rewrite filter_app.
  rewrite (filter_none (fun e => valid_entry e = true) bad); [done|].
  intros e He Hv. rewrite Forall_forall in Hbad.
  specialize (Hbad e He). congruence.
Qed.

Lemma quota_counts_accepted_entries_witness :
  feed_entries "Gamma"
    ([Entry None (Some "l") None None; Entry (Some "t") None None None]
     ++ [Entry (Some "Gold climbs") (Some "https://gamma.example/2") None None])
    0 [Item "Oil slips" "https://alpha.example/2" "Alpha" "Crude fell"]
  = feed_entries "Gamma"
      [Entry (Some "Gold climbs") (Some "https://gamma.example/2") None None]
      0 [Item "Oil slips" "https://alpha.example/2" "Alpha" "Crude fell"].
Proof.
  apply (proj1 (proj2 (proj2 (quota_counts_accepted_entries "Gamma"
    [Entry (Some "Gold climbs") (Some "https://gamma.example/2") None None]
    [Item "Oil slips" "https://alpha.example/2" "Alpha" "Crude fell"])))).
  repeat constructor.
Defined.

(** ** [fetch_news]: deduplication and caps *)

Lemma dedup_loop_acc (items : list NewsItem) (seen : gset string)
    (acc : list NewsItem) :
  dedup_loop items seen acc = acc ++ dedup_loop items seen [].
Proof.
  revert seen acc. induction items as [|it rest IH]; intros seen acc;
    cbn [dedup_loop].
  - by rewrite app_nil_r.
  - destruct (decide (lower (n_title it) ∈ seen)); [apply IH|].
    rewrite (IH _ (acc ++ [it])), (IH _ ([] ++ [it])).
    by rewrite <- app_assoc.
Qed.

Lemma dedup_loop_cons (it : NewsItem) (rest : list NewsItem) (seen : gset string) :
  dedup_loop (it :: rest) seen []
  = if decide (news_key it ∈ seen) then dedup_loop rest seen []
    else it :: dedup_loop rest ({[ news_key it ]} ∪ seen) [].
Proof.
  cbn [dedup_loop]. fold (news_key it).
  destruct (decide (news_key it ∈ seen)); [done|].
  by rewrite dedup_loop_acc.
Qed.

Lemma dedup_loop_sublist (items : list NewsItem) (seen : gset string) :
  (dedup_loop items seen []) `sublist_of` items.
Proof.
  revert seen. induction items as [|it rest IH]; intros seen.
  - done.
  - rewrite dedup_loop_cons. destruct (decide _).
    + by apply sublist_cons.
    + by apply sublist_skip.
Qed.

(** A kept item has a key that was not seen, and is the first with it. *)
Lemma dedup_loop_kept (items : list NewsItem) (seen : gset string)
    (it : NewsItem) :
  it ∈ dedup_loop items seen [] ->
  (news_key it ∉ seen) /\ first_with_key it items.
Proof.
  revert seen. induction items as [|x rest IH]; intros seen.
  - intros Hin. by apply elem_of_nil in Hin.
  - rewrite dedup_loop_cons. destruct (decide (news_key x ∈ seen)) as [Hx|Hx].
    + intros Hin. destruct (IH _ Hin) as [Hns (pre & post & Hrest & Hpre)].
      split; [done|]. exists (x :: pre), post. split; [by rewrite Hrest|].
      intros y Hy. apply elem_of_cons in Hy as [Hy|Hy]; [|by apply Hpre].
      subst y. intros Heq. apply Hns. by rewrite <- Heq.
    + intros Hin. apply elem_of_cons in Hin as [Hin|Hin].
      * subst it. split; [done|]. exists [], rest. split; [done|].
        intros y Hy. by apply elem_of_nil in Hy.
      * destruct (IH _ Hin) as [Hns (pre & post & Hrest & Hpre)].
        rewrite not_elem_of_union, not_elem_of_singleton in Hns.
        destruct Hns as [Hne Hns]. split; [done|].
        exists (x :: pre), post. split; [by rewrite Hrest|].
        intros y Hy. apply elem_of_cons in Hy as [Hy|Hy]; [|by apply Hpre].
        subst y. congruence.
Qed.

Lemma dedup_loop_NoDup (items : list NewsItem) (seen : gset string) :
  NoDup (news_key <$> dedup_loop items seen []).
Proof.
  revert seen. induction items as [|x rest IH]; intros seen.
  - constructor.
  - rewrite dedup_loop_cons. destruct (decide _); [apply IH|].
    rewrite fmap_cons. apply NoDup_cons. split; [|apply IH].
    intros Hin. apply list_elem_of_fmap in Hin as (y & Hkey & Hy).
    apply dedup_loop_kept in Hy as [Hns _].
    rewrite not_elem_of_union, not_elem_of_singleton in Hns. by destruct Hns.
Qed.

(** The first item with a key that was not seen is kept. *)
Lemma dedup_loop_keeps_first (pre post : list NewsItem) (it : NewsItem)
    (seen : gset string) :
  (forall x, x ∈ pre -> news_key x <> news_key it) ->
  news_key it ∉ seen ->
  it ∈ dedup_loop (pre ++ it :: post) seen [].
Proof.
  revert seen. induction pre as [|x pre IH]; intros seen Hpre Hns.
  - cbn [app]. rewrite dedup_loop_cons, decide_False by done. by left.
  - cbn [app]. rewrite dedup_loop_cons.
    assert (news_key x <> news_key it) as Hne by (apply Hpre; by left).
    assert (forall y, y ∈ pre -> news_key y <> news_key it) as Hpre'
      by (intros y Hy; apply Hpre; by right).
    destruct (decide _).
    + by apply IH.
    + right. apply IH; [done|].
      rewrite not_elem_of_union, not_elem_of_singleton. split; congruence.
Qed.

Lemma sublist_concat_parts {A : Type} (l : list A) (ls : list (list A)) :
  l `sublist_of` concat ls ->
  exists parts, l = concat parts /\ Forall2 sublist parts ls.
Proof.
  revert l. induction ls as [|k ls IH]; intros l Hl.
  - apply sublist_nil_r in Hl as ->. by exists [].
  - cbn [concat] in Hl. apply sublist_app_r in Hl as (l1 & l2 & -> & H1 & H2).
    destruct (IH _ H2) as (parts & -> & Hparts).
    exists (l1 :: parts). split; [done|]. by constructor.
Qed.

Lemma fetch_news_sublist (feeds : fetched) :
  fetch_news feeds `sublist_of` concat (contribution <$> feeds).
Proof.
  unfold fetch_news. rewrite collect_spec. cbn [app].
  etrans; [apply sublist_take|apply dedup_loop_sublist].
Qed.

Lemma letters_checked_true : letters_checked = true.
Proof. by vm_compute. Qed.

Lemma same_letter_lower (c d : ascii) :
  same_letter c d = Ascii.eqb (lower_char c) (lower_char d).
Proof.
  pose proof letters_checked_true as Hall. unfold letters_checked in Hall.
  rewrite List.forallb_forall in Hall.
  specialize (Hall (nat_of_ascii c)).
  rewrite List.forallb_forall in Hall.
  assert (forall a : ascii, In (nat_of_ascii a) (seq 0 256)) as Hin.
  { intros a. apply in_seq. pose proof (nat_ascii_bounded a). lia. }
  specialize (Hall (Hin c) (nat_of_ascii d) (Hin d)).
  rewrite !ascii_nat_embedding in Hall. by apply Bool.eqb_prop in Hall.
Qed.

(** Lower-casing identifies exactly the texts that differ at most in the
    case of their letters. *)
Lemma equal_ignoring_case_lower (a b : string) :
  equal_ignoring_case a b = true <-> lower a = lower b.
Proof.
  revert b. induction a as [|c a IH]; intros [|d b]; cbn; try done.
  rewrite andb_true_iff, same_letter_lower, IH, Ascii.eqb_eq.
  split; [by intros [-> ->]|]. by intros [= -> ->].
Qed.

(** C3, as stated, fails for titles that are equal after case folding
    without being equal after lower-casing: STRASSE and its spelling with a
    sharp s fold to the same text, and both items are in the output. *)
Lemma fetch_news_keeps_sharp_s :
  casefold "STRASSE" = casefold ("stra" +:+ String sharp_s "e")
  /\ fetch_news strasse_feeds
     = [ Item "STRASSE" "https://alpha.example/1" "Alpha" "";
         Item ("stra" +:+ String sharp_s "e") "https://alpha.example/2"
           "Alpha" "" ]
  /\ ~ NoDup (casefold <$> (n_title <$> fetch_news strasse_feeds)).
Proof.
  split; [by vm_compute|]. split; [by vm_compute|].
  intros Hnd.
  replace (casefold <$> (n_title <$> fetch_news strasse_feeds))
    with ["strasse"; "strasse"] in Hnd by (by vm_compute).
  apply NoDup_cons in Hnd as [Hnotin _]. apply Hnotin. left.
Qed.

(** C3, amended: no two items of the output have titles that are equal
    after lower-casing, that is, titles that differ at most in the case of
    their letters; every item of the output is the first collected item with
    its lower-cased title; and the deduplication, which the cap of
    [NEWS_LIMIT] then cuts, keeps the first collected item of every
    lower-cased title. *)
Theorem fetch_news_dedup (feeds : fetched) :
  NoDup (news_key <$> fetch_news feeds)
  /\ (forall it, it ∈ fetch_news feeds -> first_with_key it (collect feeds []))
  /\ fetch_news feeds = take NEWS_LIMIT (dedup_loop (collect feeds []) ∅ [])
  /\ (forall it, first_with_key it (collect feeds []) ->
                 it ∈ dedup_loop (collect feeds []) ∅ [])
  /\ (forall i j it1 it2,
        i <> j ->
        fetch_news feeds !! i = Some it1 ->
        fetch_news feeds !! j = Some it2 ->
        equal_ignoring_case (n_title it1) (n_title it2) = false).
Proof.
  assert (Hnd : NoDup (news_key <$> fetch_news feeds)).
  { unfold fetch_news. rewrite fmap_take.
    eapply sublist_NoDup; [apply dedup_loop_NoDup|apply sublist_take]. }
  split; [done|]. split; [|split; [done|split]].
  - intros it Hin. unfold fetch_news in Hin.
    pose proof (elem_of_sublist _ _ _ Hin (sublist_take _ _)) as Hin'.
    by apply dedup_loop_kept in Hin' as [_ Hfirst].
  - intros it (pre & post & -> & Hpre).
    apply dedup_loop_keeps_first; [done|apply not_elem_of_empty].
  - intros i j it1 it2 Hij H1 H2.
    destruct (equal_ignoring_case (n_title it1) (n_title it2)) eqn:Heq; [|done].
    exfalso. apply Hij. apply equal_ignoring_case_lower in Heq.
    rewrite NoDup_alt in Hnd. apply (Hnd i j (news_key it1)).
    + by rewrite list_lookup_fmap, H1.
    + rewrite list_lookup_fmap, H2. unfold news_key. simpl. by rewrite Heq.
Qed.

(** C4: the output has at most [NEWS_LIMIT] items; every feed contributes at
    most [NEWS_PER_SOURCE] collected items, however many entries it offers;
    and the output splits, feed by feed, into parts drawn from what each
    feed collected, so each part has at most [NEWS_PER_SOURCE] items. *)
Theorem fetch_news_caps (feeds : fetched) :
  (length (fetch_news feeds) <= NEWS_LIMIT)%nat
  /\ collect feeds [] = concat (contribution <$> feeds)
  /\ Forall (fun f => (length (contribution f) <= NEWS_PER_SOURCE)%nat) feeds
  /\ exists parts,
       fetch_news feeds = concat parts
       /\ Forall2 (fun part f => part `sublist_of` contribution f
                                 /\ (length part <= NEWS_PER_SOURCE)%nat)
            parts feeds.
Proof.
  split; [|split; [|split]].
  - unfold fetch_news. rewrite length_take. lia.
  - by rewrite collect_spec.
  - apply Forall_forall. intros f _. apply contribution_length.
  - destruct (sublist_concat_parts _ _ (fetch_news_sublist feeds))
      as (parts & Hparts & Hall).
    exists parts. split; [done|].
    rewrite Forall2_fmap_r in Hall.
    eapply Forall2_impl; [exact Hall|]. cbv beta.
    intros part f Hsub. split; [done|].
    apply sublist_length in Hsub. pose proof (contribution_length f). lia.
Qed.

(** The example of the specification: two feeds give the same title in
    different cases, and only the first item met is in the output. *)
Example fetch_news_sample :
  fetch_news sample_feeds
  = [ Item "Fed Holds Rates Steady" "https://alpha.example/1" "Alpha"
        "Stocks rose today.";
      Item "Oil slips" "https://alpha.example/2" "Alpha" "Crude fell";
      Item "Gold climbs" "https://gamma.example/2" "Gamma" "" ].
Proof. by vm_compute. Qed.

Lemma fetch_news_dedup_witness :
  first_with_key
    (Item "Gold climbs" "https://gamma.example/2" "Gamma" "")
    (collect sample_feeds []).
Proof.
  apply (proj1 (proj2 (fetch_news_dedup sample_feeds))).
  rewrite fetch_news_sample. do 2 right. left.
Defined.


(** * Further properties *)

(** ** [pct] on operands that are not numbers *)

(** X1: when an operand is a [str] or [None], the [TypeError] of the
    division is swallowed and [pct] returns NaN. *)
Theorem pct_non_number (a b : pyval) :
  is_number a && is_number b = false -> pct a b = Ok nan.
Proof.
  intros Hnum. unfold pct, py_truediv.
  destruct a as [x|x|s|], b as [y|y|t|]; try discriminate Hnum; reflexivity.
Qed.

Lemma pct_non_number_witness :
  pct (PyStr "102.5") (PyFloat 100) = Ok nan.
Proof. apply (pct_non_number (PyStr "102.5") (PyFloat 100)). reflexivity. Defined.

(** ** [fetch_prices]: order, locality, flat columns *)

Lemma quote_row_pair (data : download) (t : string * string) (q : IndexQuote) :
  quote_row data t = Some q -> (q_ticker q, q_name q) = t.
Proof.
  unfold quote_row, quote_of.
  destruct (select data t.1) as [df|e]; simpl; [|done].
  destruct (decide _); simpl; [done|].
  destruct (index_from_end (tail 2 _) 2) as [p|e]; simpl; [|done].
  destruct (index_from_end (tail 2 _) 1) as [l|e]; simpl; [|done].
  rewrite pct_floats; simpl.
  intros [= <-]. by destruct t.
Qed.

Lemma omap_sublist_proj {A B : Type} (f : A -> option B) (g : B -> A)
    (l : list A) :
  (forall x y, f x = Some y -> g y = x) ->
  (g <$> omap f l) `sublist_of` l.
Proof.
  intros Hfg. induction l as [|x l IH]; [done|].
  rewrite omap_cons'. destruct (f x) as [y|] eqn:Hx.
  - rewrite fmap_cons, (Hfg _ _ Hx). by apply sublist_skip.
  - by apply sublist_cons.
Qed.

(** X2: the rows follow the order of [TICKERS], with at most one row per
    ticker and the configured label as name. *)
Theorem fetch_prices_order (data : download) :
  ((fun q => (q_ticker q, q_name q)) <$> fetch_prices data) `sublist_of` TICKERS
  /\ NoDup (q_ticker <$> fetch_prices data)
  /\ (length (fetch_prices data) <= length TICKERS)%nat.
Proof.
  assert (Hsub : ((fun q => (q_ticker q, q_name q)) <$> fetch_prices data)
                 `sublist_of` TICKERS).
  { rewrite fetch_prices_omap. apply omap_sublist_proj.
    intros t q. apply quote_row_pair. }
  split; [done|]. split.
  - replace (q_ticker <$> fetch_prices data)
      with (fst <$> ((fun q => (q_ticker q, q_name q)) <$> fetch_prices data))
      by (by rewrite <- list_fmap_compose).
    eapply sublist_NoDup; [apply NoDup_TICKERS|]. by apply fmap_sublist.
  - apply sublist_length in Hsub. by rewrite length_fmap in Hsub.
Qed.

(** X3: the row of a configured ticker is a function of its two most recent
    valid closes: two downloads that agree on them give it the same row,
    whatever the older history and the other tickers hold. *)
Theorem fetch_prices_two_closes_only (d1 d2 : download) (tk label : string) :
  (tk, label) ∈ TICKERS ->
  last_two_closes d1 tk = last_two_closes d2 tk ->
  quotes_for tk (fetch_prices d1) = quotes_for tk (fetch_prices d2).
Proof.
  intros Hin Heq.
  destruct (last_two_closes d1 tk) as [[p l]|] eqn:H1.
  - rewrite (quotes_for_two d1 tk label p l Hin H1).
    by rewrite (quotes_for_two d2 tk label p l Hin (eq_sym Heq)).
  - rewrite (quotes_for_few d1 tk label Hin H1).
    by rewrite (quotes_for_few d2 tk label Hin (eq_sym Heq)).
Qed.

Lemma fetch_prices_two_closes_only_witness :
  quotes_for "^GSPC" (fetch_prices sample_download)
  = quotes_for "^GSPC"
      (fetch_prices (FlatColumns [Bar 1 1 1 100 1; Bar 2 2 2 102 2])).
Proof.
  refine (fetch_prices_two_closes_only sample_download
            (FlatColumns [Bar 1 1 1 100 1; Bar 2 2 2 102 2])
            "^GSPC" "S&P 500" _ _).
  - left.
  - reflexivity.
Defined.

Lemma omap_all_Some {A B : Type} (f : A -> option B) (g : A -> B) (l : list A) :
  (forall x, x ∈ l -> f x = Some (g x)) -> omap f l = g <$> l.
Proof.
  induction l as [|x l IH]; intros Hall; [done|].
  rewrite omap_cons', (Hall x) by left. rewrite fmap_cons. f_equal.
  apply IH. intros y Hy. apply Hall. by right.
Qed.

Lemma omap_all_None {A B : Type} (f : A -> option B) (l : list A) :
  (forall x, x ∈ l -> f x = None) -> omap f l = [].
Proof.
  induction l as [|x l IH]; intros Hall; [done|].
  rewrite omap_cons', (Hall x) by left.
  apply IH. intros y Hy. apply Hall. by right.
Qed.

(** X4: when the download has flat columns the one frame serves every
    ticker: with two valid closes all the configured tickers get a row made
    from the same two closes, and with fewer the output is empty. *)
Theorem fetch_prices_flat_columns (df : DataFrame) :
  fetch_prices (FlatColumns df)
  = match reverse (Close <$> dropna df) with
    | l :: p :: _ => quote_from_closes p l <$> TICKERS
    | _ => []
    end.
Proof.
  rewrite fetch_prices_omap.
  destruct (reverse (Close <$> dropna df)) as [|l [|p rest]] eqn:Hrev.
  - apply omap_all_None. intros [tk label] _. apply quote_row_few.
    unfold last_two_closes, valid_closes; simpl. by rewrite Hrev.
  - apply omap_all_None. intros [tk label] _. apply quote_row_few.
    unfold last_two_closes, valid_closes; simpl. by rewrite Hrev.
  - apply omap_all_Some. intros [tk label] _.
    rewrite (quote_row_two (FlatColumns df) tk label p l); [done|].
    unfold last_two_closes, valid_closes; simpl. by rewrite Hrev.
Qed.

(** ** The change cell *)

(** X5: a configured ticker whose previous close is zero is shown with the
    text [+nan%] in the [dn] style. *)
Theorem zero_prev_close_cell (data : download) (tk label : string) (p l : float) :
  (tk, label) ∈ TICKERS ->
  last_two_closes data tk = Some (p, l) ->
  (p =? 0)%float = true ->
  exists q, quotes_for tk (fetch_prices data) = [q] /\ chg_cell q = nan_cell.
Proof.
  intros Hin Hlast Hp. eexists. split; [by apply quotes_for_two|].
  unfold chg_cell, chg_class. simpl. rewrite Hp. reflexivity.
Qed.

Lemma zero_prev_close_cell_witness :
  exists q, quotes_for "^VIX" (fetch_prices sample_download) = [q]
            /\ chg_cell q = nan_cell.
Proof.
  refine (zero_prev_close_cell sample_download "^VIX" "VIX" 0 5 _ _ _).
  - do 3 right. left.
  - reflexivity.
  - reflexivity.
Defined.

(** X6: the printed sign agrees with the style, with two exceptions: a
    change of negative zero gets [up] and prints [-0.00], and a NaN change
    gets [dn] and prints [+nan]. *)
Theorem sign_and_class (r : IndexQuote) :
  (chg_class r = "up" /\
   ((exists rest, format_plus_2f (q_chgpct r) = String "+" rest)
    \/ format_plus_2f (q_chgpct r) = "-0.00"))
  \/ (chg_class r = "dn" /\
      ((exists rest, format_plus_2f (q_chgpct r) = String "-" rest)
       \/ format_plus_2f (q_chgpct r) = "+nan")).
Proof.
  unfold chg_class, format_plus_2f. rewrite leb_spec.
  change (Prim2SF 0) with (S754_zero false).
  destruct (Prim2SF (q_chgpct r)) as [s|s| |s m e]; unfold SFleb; simpl.
  - left. split; [done|]. destruct s; [by right|left; by eexists].
  - destruct s; [right|left]; (split; [done|]); left; by eexists.
  - right. split; [done|]. by right.
  - destruct s; [right|left]; (split; [done|]); left; by eexists.
Qed.

(** ** [safe_first_sentence]: bounds and shape of the excerpt *)

Lemma str_take_prefix (n : nat) (s : string) :
  String.prefix (str_take n s) s = true.
Proof.
  apply prefix_spec. destruct (str_take_split n s) as [rest Hrest].
  by exists rest.
Qed.

Lemma slice_to_take (s : string) (k : Z) : exists n, slice_to s k = str_take n s.
Proof. unfold slice_to. destruct (k <? 0); by eexists. Qed.

Lemma str_take_take_min (n k : nat) (s : string) :
  str_take n (str_take k s) = str_take (Nat.min n k) s.
Proof.
  revert n k. induction s as [|c s IH]; intros [|n] [|k]; simpl; try done.
  by rewrite IH.
Qed.

(** What [safe_first_sentence] returns is cut from the front of the
    normalized text. *)
Lemma safe_first_sentence_take (t : string) (max_chars : Z) :
  exists n, safe_first_sentence (Some t) max_chars = str_take n (normalized t).
Proof.
  unfold safe_first_sentence.
  destruct (truthy t) eqn:Ht; cbn [negb].
  2:{ destruct t; [|done]. by exists O. }
  fold (normalized t).
  destruct ((0 <? find ". " (normalized t))
            && (find ". " (normalized t) <? max_chars)).
  - destruct (slice_to_take (normalized t) (find ". " (normalized t) + 1))
      as [n ->].
    destruct (slice_to_take (str_take n (normalized t)) max_chars) as [k ->].
    rewrite str_take_take_min. by eexists.
  - apply slice_to_take.
Qed.

(** X7: for every budget that is not negative, the excerpt has at most that
    many characters. *)
Theorem safe_first_sentence_length (text : option string) (max_chars : Z) :
  0 <= max_chars ->
  Z.of_nat (String.length (safe_first_sentence text max_chars)) <= max_chars.
Proof.
  intros Hmax. destruct text as [t|]; [|simpl; lia].
  unfold safe_first_sentence.
  destruct (truthy t); cbn [negb]; [|simpl; lia].
  rewrite (slice_to_nonneg _ max_chars Hmax).
  match goal with
  | |- context [str_take ?n ?s] => pose proof (str_take_length n s)
  end.
  lia.
Qed.

Lemma safe_first_sentence_length_witness :
  Z.of_nat (String.length (safe_first_sentence (Some "Stocks rose today.") 6)) <= 6.
Proof.
  apply (safe_first_sentence_length (Some "Stocks rose today.") 6). lia.
Defined.

(** X8: for every budget, the excerpt is a prefix of the text as stripped
    and with newlines and doubled spaces replaced: nothing is added, moved
    or dropped inside it. *)
Theorem safe_first_sentence_prefix (t : string) (max_chars : Z) :
  exists rest, normalized t = safe_first_sentence (Some t) max_chars +:+ rest.
Proof.
  destruct (safe_first_sentence_take t max_chars) as [n ->].
  apply str_take_split.
Qed.

Lemma isspace_LF : isspace LF = true.
Proof. reflexivity. Qed.

Lemma lstrip_no_lead (s : string) : starts_with_space (lstrip s) = false.
Proof.
  induction s as [|c s IH]; [done|].
  cbn [lstrip]. destruct (isspace c) eqn:Hc; [done|]. simpl. by rewrite Hc.
Qed.

Lemma rstrip_cons (c : ascii) (s : string) :
  rstrip (String c s) = "" \/ exists r, rstrip (String c s) = String c r.
Proof.
  cbn [rstrip]. destruct (rstrip s) as [|c' r].
  - destruct (isspace c); [by left|right; by eexists].
  - right. by eexists.
Qed.

Lemma rstrip_no_lead (s : string) :
  starts_with_space s = false -> starts_with_space (rstrip s) = false.
Proof.
  destruct s as [|c s]; [done|]. intros Hc.
  destruct (rstrip_cons c s) as [->|[r ->]]; done.
Qed.

Lemma rstrip_nonspace_head (c : ascii) (s : string) :
  isspace c = false -> exists r, rstrip (String c s) = String c r.
Proof.
  intros Hc. cbn [rstrip]. destruct (rstrip s) as [|c' r].
  - rewrite Hc. by eexists.
  - by eexists.
Qed.

Lemma strip_no_lead (s : string) : starts_with_space (strip s) = false.
Proof. unfold strip. apply rstrip_no_lead, lstrip_no_lead. Qed.

Lemma rstrip_no_trail (s : string) : ends_with_space (rstrip s) = false.
Proof.
  induction s as [|c s IH]; [done|].
  cbn [rstrip]. destruct (rstrip s) as [|c' r].
  - destruct (isspace c) eqn:Hc; [done|]. simpl. by rewrite Hc.
  - exact IH.
Qed.

Lemma strip_no_trail (s : string) : ends_with_space (strip s) = false.
Proof. unfold strip. apply rstrip_no_trail. Qed.

Lemma prefix_LF_head (c : ascii) (s : string) :
  isspace c = false -> String.prefix (String LF "") (String c s) = false.
Proof.
  intros Hc. cbn [String.prefix].
  destruct (Ascii.ascii_dec LF c) as [<-|_]; [|done].
  by rewrite isspace_LF in Hc.
Qed.

Lemma prefix_spaces_head (c : ascii) (s : string) :
  isspace c = false -> String.prefix "  " (String c s) = false.
Proof.
  intros Hc. cbn [String.prefix].
  destruct (Ascii.ascii_dec " " c) as [<-|_]; [|done].
  discriminate Hc.
Qed.

(** Stripping leaves a non-whitespace first character where it is, and so do
    the two replacements. *)
Lemma normalized_head (t : string) :
  (strip t = "" /\ normalized t = "")
  \/ exists c r r', strip t = String c r /\ normalized t = String c r'
                    /\ isspace c = false.
Proof.
  unfold normalized. pose proof (strip_no_lead t) as Hlead.
  destruct (strip t) as [|c r]; [by left|]. right.
  simpl in Hlead. exists c, r.
  unfold replace. cbn [replace_from]. rewrite (prefix_LF_head c r Hlead).
  cbn [replace_from]. rewrite (prefix_spaces_head c _ Hlead).
  by eexists.
Qed.

Lemma starts_with_space_str_take (n : nat) (s : string) :
  starts_with_space s = false -> starts_with_space (str_take n s) = false.
Proof. destruct n, s; done. Qed.

Lemma has_char_app (c : ascii) (a b : string) :
  has_char c (a +:+ b) = has_char c a || has_char c b.
Proof.
  induction a as [|x a IH]; [done|].
  rewrite append_cons. cbn [has_char]. by rewrite IH, orb_assoc.
Qed.

Lemma has_char_take (c : ascii) (n : nat) (s : string) :
  has_char c s = false -> has_char c (str_take n s) = false.
Proof.
  revert n. induction s as [|x s IH]; intros [|n]; try done.
  cbn [has_char str_take]. intros [Hx Hs]%orb_false_iff.
  rewrite Hx. by apply IH.
Qed.

(** After [replace("\n", " ")] no line feed is left. *)
Lemma replace_LF_none (s : string) :
  has_char LF (replace (String LF "") " " s) = false.
Proof.
  unfold replace. induction s as [|c s IH]; [done|].
  cbn [replace_from String.prefix String.length Nat.sub].
  destruct (Ascii.ascii_dec LF c) as [<-|Hne].
  - replace (String.prefix "" s) with true by (by destruct s).
    rewrite has_char_app, IH. reflexivity.
  - cbn [has_char]. rewrite IH, orb_false_r.
    by apply Ascii.eqb_neq.
Qed.

(** A replacement brings in no character that is neither in the text nor
    in the new string. *)
Lemma replace_from_no_char (c : ascii) (old new s : string) (skip : nat) :
  has_char c new = false -> has_char c s = false ->
  has_char c (replace_from old new skip s) = false.
Proof.
  intros Hnew. revert skip. induction s as [|x s IH]; intros skip; [done|].
  cbn [has_char replace_from]. intros [Hx Hs]%orb_false_iff.
  destruct skip as [|k]; [|by apply IH].
  destruct (String.prefix old (String x s)).
  - rewrite has_char_app, Hnew. by apply IH.
  - cbn [has_char]. rewrite Hx. by apply IH.
Qed.

Lemma normalized_no_LF (t : string) : has_char LF (normalized t) = false.
Proof.
  unfold normalized, replace at 1.
  apply replace_from_no_char; [done|apply replace_LF_none].
Qed.

(** X9: for every budget, the excerpt is a single line that does not begin
    with whitespace. *)
Theorem safe_first_sentence_single_line (t : string) (max_chars : Z) :
  has_char LF (safe_first_sentence (Some t) max_chars) = false
  /\ starts_with_space (safe_first_sentence (Some t) max_chars) = false.
Proof.
  destruct (safe_first_sentence_take t max_chars) as [n ->]. split.
  - apply has_char_take, normalized_no_LF.
  - apply starts_with_space_str_take.
    destruct (normalized_head t) as [[_ ->]|(c & r & r' & _ & -> & Hc)];
      [done|exact Hc].
Qed.

Lemma lstrip_all_space (s : string) : lstrip s = "" <-> all_space s = true.
Proof.
  induction s as [|c s IH]; [done|].
  cbn [lstrip all_space]. destruct (isspace c); [exact IH|]. done.
Qed.

Lemma strip_all_space (s : string) : strip s = "" <-> all_space s = true.
Proof.
  rewrite <- lstrip_all_space. unfold strip.
  pose proof (lstrip_no_lead s) as Hlead.
  destruct (lstrip s) as [|c r]; [done|].
  simpl in Hlead. destruct (rstrip_nonspace_head c r Hlead) as [r' ->]. done.
Qed.

Lemma excerpt_empty_iff (t : string) :
  safe_first_sentence (Some t) default_max_chars = "" <-> all_space t = true.
Proof.
  rewrite <- strip_all_space. split.
  - intros Hempty. destruct t as [|c0 t0]; [done|].
    rewrite (safe_first_sentence_cases (String c0 t0) eq_refl) in Hempty.
    destruct (normalized_head (String c0 t0))
      as [[Hs _]|(c & r & r' & _ & Hn & _)]; [done|].
    exfalso. rewrite Hn in Hempty.
    destruct (first_index ". " (String c r')) as [[|k]|]; try done.
    by destruct (S k <? 220)%nat.
  - intros Hstrip.
    destruct (safe_first_sentence_take t default_max_chars) as [n ->].
    unfold normalized. rewrite Hstrip. by destruct n.
Qed.

(** X10: with the default budget the excerpt is empty exactly when the text
    is empty or consists of whitespace only. *)
Theorem safe_first_sentence_empty (t : string) :
  safe_first_sentence (Some t) default_max_chars = "" <-> all_space t = true.
Proof. apply excerpt_empty_iff. Qed.

(** ** [fetch_news]: where the items come from *)

Lemma elem_of_concat {A : Type} (x : A) (ls : list (list A)) :
  x ∈ concat ls -> exists l, l ∈ ls /\ x ∈ l.
Proof.
  induction ls as [|k ls IH]; cbn [concat]; intros Hx.
  - by apply elem_of_nil in Hx.
  - apply elem_of_app in Hx as [Hx|Hx].
    + exists k. split; [by left|done].
    + destruct (IH Hx) as (l & Hl & Hxl). exists l. split; [by right|done].
Qed.

Lemma fetch_news_contribution (feeds : fetched) (it : NewsItem) :
  it ∈ fetch_news feeds -> exists f, f ∈ feeds /\ it ∈ contribution f.
Proof.
  intros Hin.
  pose proof (elem_of_sublist _ _ _ Hin (fetch_news_sublist feeds)) as Hc.
  apply elem_of_concat in Hc as (l & Hl & Hit).
  apply list_elem_of_fmap in Hl as (f & -> & Hf). by exists f.
Qed.

Lemma contribution_entry (f : feed * result (list entry)) (it : NewsItem) :
  it ∈ contribution f ->
  exists entries e,
    f.2 = Ok entries /\ e ∈ entries /\ valid_entry e = true
    /\ it = to_item (feed_name f.1) e.
Proof.
  unfold contribution. destruct (f.2) as [entries|err]; intros Hin.
  - pose proof (elem_of_sublist _ _ _ Hin (sublist_take _ _)) as Hin'.
    apply list_elem_of_fmap in Hin' as (e & -> & He).
    apply list_elem_of_filter in He as [Hv He].
    by exists entries, e.
  - by apply elem_of_nil in Hin.
Qed.

(** X11: every item of the output was built from an entry of a feed whose
    parsing succeeded, an entry with a non-empty title and a non-empty link;
    its source label is the name of that feed. *)
Theorem fetch_news_origin (feeds : fetched) (it : NewsItem) :
  it ∈ fetch_news feeds ->
  exists f entries e,
    (f, Ok entries) ∈ feeds /\ e ∈ entries
    /\ truthy (get (e_title e)) = true /\ truthy (get (e_link e)) = true
    /\ it = to_item (feed_name f) e.
Proof.
  intros Hin.
  apply fetch_news_contribution in Hin as ([f parsed] & Hf & Hit).
  apply contribution_entry in Hit as (entries & e & Hp & He & Hv & ->).
  simpl in Hp. subst parsed.
  apply andb_true_iff in Hv as [Ht Hl].
  by exists f, entries, e.
Qed.

Lemma fetch_news_origin_witness :
  exists f entries e,
    (f, Ok entries) ∈ sample_feeds /\ e ∈ entries
    /\ truthy (get (e_title e)) = true /\ truthy (get (e_link e)) = true
    /\ Item "Gold climbs" "https://gamma.example/2" "Gamma" ""
       = to_item (feed_name f) e.
Proof.
  apply (fetch_news_origin sample_feeds).
  rewrite fetch_news_sample. do 2 right. left.
Defined.

Lemma has_char_occurs (c : ascii) (s : string) :
  occurs (String c "") s = has_char c s.
Proof.
  induction s as [|x s IH]; [done|].
  cbn [occurs has_char String.prefix]. rewrite IH. f_equal.
  destruct (Ascii.ascii_dec c x) as [<-|Hne].
  - rewrite Ascii.eqb_refl. by destruct s.
  - symmetry. by apply Ascii.eqb_neq.
Qed.

(** X12: the title and the link of every item of the output have no
    whitespace at either end, and its summary is a single line of at most
    220 characters. *)
Theorem fetch_news_item_shape (feeds : fetched) (it : NewsItem) :
  it ∈ fetch_news feeds ->
  starts_with_space (n_title it) = false /\ ends_with_space (n_title it) = false
  /\ starts_with_space (n_link it) = false /\ ends_with_space (n_link it) = false
  /\ (String.length (n_summary it) <= 220)%nat
  /\ occurs (String LF "") (n_summary it) = false.
Proof.
  intros Hin.
  apply fetch_news_contribution in Hin as (f & _ & Hit).
  apply contribution_entry in Hit as (entries & e & _ & _ & _ & ->).
  cbn [to_item n_title n_link n_summary].
  repeat split;
    try apply strip_no_lead; try apply strip_no_trail.
  - destruct (safe_first_sentence_take
                (str_or (get (e_summary e)) (get (e_description e)))
                default_max_chars) as [n Hn].
    set (text := str_or _ _) in *.
    unfold safe_first_sentence in *. destruct (truthy text); cbn [negb] in *;
      [|simpl; lia].
    unfold default_max_chars. rewrite slice_to_nonneg by lia.
    match goal with
    | |- context [str_take ?n ?s] => pose proof (str_take_length n s)
    end.
    change (Z.to_nat 220) with 220%nat in *. lia.
  - rewrite has_char_occurs.
    destruct (safe_first_sentence_take
                (str_or (get (e_summary e)) (get (e_description e)))
                default_max_chars) as [n ->].
    apply has_char_take, normalized_no_LF.
Qed.

Lemma fetch_news_item_shape_witness :
  starts_with_space "Oil slips" = false /\ ends_with_space "Oil slips" = false
  /\ starts_with_space "https://alpha.example/2" = false
  /\ ends_with_space "https://alpha.example/2" = false
  /\ (String.length "Crude fell" <= 220)%nat
  /\ occurs (String LF "") "Crude fell" = false.
Proof.
  apply (fetch_news_item_shape sample_feeds
           (Item "Oil slips" "https://alpha.example/2" "Alpha" "Crude fell")).
  rewrite fetch_news_sample. right. left.
Defined.

(** ** [fetch_news]: failing feeds, distinct titles, the first item *)

Lemma fetch_news_without (l1 l2 : fetched) (f : feed * result (list entry)) :
  contribution f = [] -> fetch_news (l1 ++ f :: l2) = fetch_news (l1 ++ l2).
Proof.
  intros Hf. unfold fetch_news. rewrite !collect_spec. cbn [app].
  rewrite !fmap_app, fmap_cons, !concat_app. cbn [concat].
  by rewrite Hf.
Qed.

(** X13: a feed whose parsing raised, or whose entries all lack a title or a
    link, changes nothing: the output is what it is without that feed. *)
Theorem fetch_news_skips_feed (l1 l2 : fetched) (f : feed) :
  (forall e, fetch_news (l1 ++ (f, Raise e) :: l2) = fetch_news (l1 ++ l2))
  /\ (forall entries,
        Forall (fun e => valid_entry e = false) entries ->
        fetch_news (l1 ++ (f, Ok entries) :: l2) = fetch_news (l1 ++ l2)).
Proof.
  split.
  - intros e. by apply fetch_news_without.
  - intros entries Hbad. apply fetch_news_without.
    unfold contribution; simpl.
    rewrite (filter_none (fun e => valid_entry e = true) entries); [done|].
    intros e He Hv. rewrite Forall_forall in Hbad.
    specialize (Hbad e He). congruence.
Qed.

Lemma fetch_news_skips_feed_witness :
  fetch_news ([] ++ (Feed "Delta" "https://delta.example/rss",
                     Ok [Entry (Some "No link") None None None])
                 :: sample_feeds)
  = fetch_news ([] ++ sample_feeds).
Proof.
  apply (proj2 (fetch_news_skips_feed [] sample_feeds
                  (Feed "Delta" "https://delta.example/rss"))).
  repeat constructor.
Defined.

(** On items with distinct unseen keys the loop keeps everything. *)
Lemma dedup_loop_distinct (items : list NewsItem) (seen : gset string) :
  NoDup (news_key <$> items) ->
  (forall it, it ∈ items -> news_key it ∉ seen) ->
  dedup_loop items seen [] = items.
Proof.
  revert seen. induction items as [|x rest IH]; intros seen Hnd Hseen; [done|].
  rewrite fmap_cons in Hnd. apply NoDup_cons in Hnd as [Hx Hnd].
  rewrite dedup_loop_cons, decide_False by (apply Hseen; by left).
  f_equal. apply IH; [done|].
  intros it Hit. rewrite not_elem_of_union, not_elem_of_singleton. split.
  - intros Heq. apply Hx. rewrite <- Heq. by apply list_elem_of_fmap_2.
  - apply Hseen. by right.
Qed.

(** X14: when the collected items have pairwise distinct lower-cased titles
    the deduplication drops nothing: the output is the first [NEWS_LIMIT]
    collected items. *)
Theorem fetch_news_distinct (feeds : fetched) :
  NoDup (news_key <$> collect feeds []) ->
  fetch_news feeds = take NEWS_LIMIT (collect feeds []).
Proof.
  intros Hnd. unfold fetch_news. f_equal.
  apply dedup_loop_distinct; [done|].
  intros it _. apply not_elem_of_empty.
Qed.

Lemma fetch_news_distinct_witness :
  fetch_news (take 1 sample_feeds)
  = take NEWS_LIMIT (collect (take 1 sample_feeds) []).
Proof.
  apply (fetch_news_distinct (take 1 sample_feeds)).
  apply (bool_decide_unpack _). vm_compute. exact I.
Defined.

(** X15: deduplicating twice is deduplicating once. *)
Theorem dedup_loop_idempotent (items : list NewsItem) :
  dedup_loop (dedup_loop items ∅ []) ∅ [] = dedup_loop items ∅ [].
Proof.
  apply dedup_loop_distinct; [apply dedup_loop_NoDup|].
  intros it _. apply not_elem_of_empty.
Qed.

(** X16: the first collected item is always the first item of the output;
    in particular the output is empty only when nothing was collected. *)
Theorem fetch_news_head (feeds : fetched) :
  head (fetch_news feeds) = head (collect feeds []).
Proof.
  unfold fetch_news. destruct (collect feeds []) as [|it rest]; [done|].
  rewrite dedup_loop_cons, decide_False by apply not_elem_of_empty.
  reflexivity.
Qed.

Lemma strip_of_all_space (s : string) : all_space s = true -> strip s = "".
Proof. apply strip_all_space. Qed.

(** X17: the title is checked before it is stripped: an entry with a link
    whose title is not empty but holds whitespace only is accepted, and its
    item has the empty title. *)
Theorem blank_title_accepted (src : string) (e : entry) :
  valid_entry e = true ->
  all_space (get (e_title e)) = true ->
  feed_entries src [e] 0 [] = [to_item src e]
  /\ n_title (to_item src e) = "".
Proof.
  intros Hv Hblank. split.
  - rewrite feed_entries_spec. cbn [app].
    by rewrite filter_cons_True, filter_nil by done.
  - cbn [to_item n_title]. by apply strip_of_all_space.
Qed.

Lemma blank_title_accepted_witness :
  feed_entries "Alpha" [Entry (Some " ") (Some "https://alpha.example/3") None None]
    0 []
  = [to_item "Alpha" (Entry (Some " ") (Some "https://alpha.example/3") None None)]
  /\ n_title (to_item "Alpha"
                (Entry (Some " ") (Some "https://alpha.example/3") None None))
     = "".
Proof.
  apply (blank_title_accepted "Alpha"
           (Entry (Some " ") (Some "https://alpha.example/3") None None));
    reflexivity.
Defined.

(** ** The two files of [main] *)

Lemma str_app_inv_tail (a b c : string) : a +:+ c = b +:+ c -> a = b.
Proof.
  revert b. induction a as [|x a IH]; intros [|y b] Heq.
  - done.
  - apply (f_equal String.length) in Heq.
    rewrite !str_length_app in Heq. simpl in Heq. lia.
  - apply (f_equal String.length) in Heq.
    rewrite !str_length_app in Heq. simpl in Heq. lia.
  - rewrite !append_cons in Heq. injection Heq as -> Heq.
    f_equal. by apply IH.
Qed.

Lemma str_app_inv_head (a b c : string) : a +:+ b = a +:+ c -> b = c.
Proof.
  induction a as [|x a IH]; [done|].
  rewrite !append_cons. intros [= Heq]. by apply IH.
Qed.

Lemma archive_path_inj (d1 d2 : string) :
  archive_path d1 = archive_path d2 -> d1 = d2.
Proof.
  unfold archive_path, path_join. intros Heq.
  do 2 apply str_app_inv_head in Heq. by apply str_app_inv_tail in Heq.
Qed.

Lemma archive_path_index (d : string) :
  archive_path d = index_path -> d = "index".
Proof.
  unfold archive_path, index_path, path_join. intros Heq.
  do 2 apply str_app_inv_head in Heq.
  by apply (str_app_inv_tail d "index" ".html").
Qed.

(** X18: the run writes the page to [site/index.html] and to the archive
    file of the date, and leaves every other file as it was. *)
Theorem write_report_files (fs : files) (dated html : string) :
  write_report fs dated html !! index_path = Some html
  /\ write_report fs dated html !! archive_path dated = Some html
  /\ (forall p, p <> index_path -> p <> archive_path dated ->
                write_report fs dated html !! p = fs !! p).
Proof.
  unfold write_report, write_file. split; [|split].
  - rewrite lookup_insert. case_decide; [done|]. by rewrite lookup_insert_eq.
  - by rewrite lookup_insert_eq.
  - intros p Hi Ha. by rewrite !lookup_insert_ne.
Qed.

Lemma write_report_files_witness :
  write_report {[ "site/2024-04-30.html" := "old" ]} "2024-05-01" "page"
    !! "site/2024-04-30.html"
  = ({[ "site/2024-04-30.html" := "old" ]} : files) !! "site/2024-04-30.html".
Proof.
  apply (proj2 (proj2 (write_report_files
           {[ "site/2024-04-30.html" := "old" ]} "2024-05-01" "page")));
    discriminate.
Defined.

(** X19: a second run on the same date replaces both files: the file system
    is what the second run alone would have left. *)
Theorem write_report_same_day (fs : files) (dated html1 html2 : string) :
  write_report (write_report fs dated html1) dated html2
  = write_report fs dated html2.
Proof.
  unfold write_report, write_file. apply map_eq. intros p.
  rewrite !lookup_insert. repeat case_decide; done.
Qed.

(** X20: a run on another date keeps the archive of the earlier date, while
    [site/index.html] and the new archive hold the new page. *)
Theorem write_report_other_day (fs : files) (d1 d2 html1 html2 : string) :
  d1 <> d2 -> d1 <> "index" ->
  let fs' := write_report (write_report fs d1 html1) d2 html2 in
  fs' !! archive_path d1 = Some html1
  /\ fs' !! index_path = Some html2
  /\ fs' !! archive_path d2 = Some html2.
Proof.
  intros Hd Hi. cbv zeta. unfold write_report, write_file.
  split; [|split].
  - rewrite lookup_insert_ne by (intros Heq; by apply archive_path_inj in Heq).
    rewrite lookup_insert_ne
      by (intros Heq; symmetry in Heq; by apply archive_path_index in Heq).
    by rewrite lookup_insert_eq.
  - rewrite lookup_insert. case_decide; [done|]. by rewrite lookup_insert_eq.
  - by rewrite lookup_insert_eq.
Qed.

Lemma write_report_other_day_witness :
  let fs' := write_report (write_report ∅ "2024-05-01" "first")
               "2024-05-02" "second" in
  fs' !! archive_path "2024-05-01" = Some "first"
  /\ fs' !! index_path = Some "second"
  /\ fs' !! archive_path "2024-05-02" = Some "second".
Proof.
  apply (write_report_other_day ∅ "2024-05-01" "2024-05-02" "first" "second");
    discriminate.
Defined.

(** ** The news item of [render_html] *)

(** X21: the item of an entry is rendered without summary line exactly when
    the summary of the entry, or its description when the summary is
    missing or empty, holds nothing but whitespace. *)
Theorem summary_line_absent (src : string) (e : entry) :
  summary_line (to_item src e) = ""
  <-> all_space (str_or (get (e_summary e)) (get (e_description e))) = true.
Proof.
  rewrite <- excerpt_empty_iff.
  unfold summary_line. cbn [to_item n_summary].
  destruct (safe_first_sentence _ default_max_chars) as [|c r]; [done|].
  cbn [truthy]. split; discriminate.
Qed.

(** ** [main]: a run whose fetches all fail *)

Lemma fetch_prices_no_frames (per : string -> option DataFrame) :
  (forall t, t ∈ TICKERS -> per t.1 = None) ->
  fetch_prices (MultiIndex per) = [].
Proof.
  intros Hnone. rewrite fetch_prices_omap. apply omap_all_None.
  intros t Ht. unfold quote_row, quote_of; simpl. by rewrite (Hnone t Ht).
Qed.

Lemma fetch_news_nothing (feeds : fetched) :
  Forall (fun f => contribution f = []) feeds -> fetch_news feeds = [].
Proof.
  intros Hall. unfold fetch_news. rewrite collect_spec. cbn [app].
  replace (concat (contribution <$> feeds)) with (@nil NewsItem); [done|].
  induction Hall as [|f rest Hf _ IH]; [done|].
  rewrite fmap_cons. cbn [concat]. by rewrite Hf, <- IH.
Qed.

(** X22: when the download holds no frame for any configured ticker and no
    feed gives an item, the run still writes its two files, with the page of
    empty indices and empty news. *)
Theorem main_without_data (page : list IndexQuote -> list NewsItem -> string)
    (fs : files) (per : string -> option DataFrame) (feeds : fetched)
    (dated : string) :
  (forall t, t ∈ TICKERS -> per t.1 = None) ->
  Forall (fun f => contribution f = []) feeds ->
  main page fs (MultiIndex per) feeds dated = write_report fs dated (page [] [])
  /\ main page fs (MultiIndex per) feeds dated !! index_path = Some (page [] []).
Proof.
  intros Hper Hfeeds. unfold main.
  rewrite (fetch_prices_no_frames per Hper), (fetch_news_nothing feeds Hfeeds).
  split; [done|].
  unfold write_report, write_file.
  rewrite lookup_insert. case_decide; [done|]. by rewrite lookup_insert_eq.
Qed.

Lemma main_without_data_witness :
  main (fun _ _ => "page") ∅ (MultiIndex (fun _ => None))
    [(Feed "Beta" "https://beta.example/rss", Raise KeyError)] "2024-05-01"
  = write_report ∅ "2024-05-01" "page"
  /\ main (fun _ _ => "page") ∅ (MultiIndex (fun _ => None))
       [(Feed "Beta" "https://beta.example/rss", Raise KeyError)] "2024-05-01"
     !! index_path = Some "page".
Proof.
  apply (main_without_data (fun _ _ => "page") ∅ (fun _ => None)
           [(Feed "Beta" "https://beta.example/rss", Raise KeyError)]
           "2024-05-01").
  - done.
  - repeat constructor.
Defined.

(** ** The change cell in the row *)


